(** * strength-finder-analyzer: a shallow embedding of [lib.py]

    The analytical core of the program (the theme vocabulary, [histogram],
    [distance_gen] and [specific_gen]) is embedded function by function.

    Modelling choices:
    - a theme and a member name are Python [str] values, here [string]
      (the UTF-8 bytes of the literal; the encoding is injective, so
      equality of strings is equality of the Python values);
    - a [ThemesTable] is a Python [dict]: an association list in insertion
      order whose keys are pairwise distinct ([wf_table]);
    - [rate] is a Python [int], here [Z]; the slices [xs[:rate]] and
      [xs[-rate:]] follow Python's rules for negative and zero bounds;
    - a Python [set] of themes is a [gset], a [Counter] or [dict] of
      counts is a [gmap];
    - an exception is the left summand of [result]; a generator is the
      finite sequence of its yields, ended by exhaustion or by the
      exception that aborts it ([generator]);
    - Python's [float] arithmetic is modelled by exact rational arithmetic
      on [Q];
    - of the driver, [pretty_histogram] is embedded as the list of the lines
      it prints, over dictionaries kept in insertion order ([Dict],
      [histogram_items]); the other printing functions format a float or
      print a set in hash order and are left out. *)

From stdpp Require Import base numbers list strings gmap pretty.
From Stdlib Require Import QArith Lqa.

#[local] Set Warnings "-clear-no-such-hyp,-at-level-200-changed".

Close Scope Q_scope.
Local Open Scope string_scope.
Local Open Scope nat_scope.

(** ** Python primitives used by the module *)

Module Py.

(** Exceptions that the module can raise. *)
Inductive exn : Set :=
| ZeroDivisionError
| TypeError.

Definition result (A : Type) : Type := exn + A.

Definition ret {A} (a : A) : result A := inr a.
Definition raise {A} (e : exn) : result A := inl e.

Definition bind {A B} (m : result A) (k : A → result B) : result B :=
  match m with
  | inl e => inl e
  | inr a => k a
  end.

(** A finite generator: the yields in order, then either exhaustion or the
    exception raised while computing the next item. *)
Inductive generator (A : Type) : Type :=
| Stop
| Raise (e : exn)
| Yield (a : A) (g : generator A).
Arguments Stop {A}.
Arguments Raise {A} e.
Arguments Yield {A} a g.

(** [for x in l: yield f(x)] *)
Fixpoint for_yield {A B} (f : A → result B) (l : list A) : generator B :=
  match l with
  | [] => Stop
  | x :: l' =>
      match f x with
      | inl e => Raise e
      | inr b => Yield b (for_yield f l')
      end
  end.

(** The items a generator yields before it stops or raises. *)
Fixpoint yielded {A} (g : generator A) : list A :=
  match g with
  | Stop | Raise _ => []
  | Yield a g' => a :: yielded g'
  end.

(** The exception that ends the generator, if any. *)
Fixpoint raised {A} (g : generator A) : option exn :=
  match g with
  | Stop => None
  | Raise e => Some e
  | Yield _ g' => raised g'
  end.

(** [xs[:k]] *)
Definition slice_to {A} (xs : list A) (k : Z) : list A :=
  if (0 <=? k)%Z then take (Z.to_nat k) xs
  else take (length xs - Z.to_nat (- k)) xs.

(** [xs[k:]] *)
Definition slice_from {A} (xs : list A) (k : Z) : list A :=
  if (0 <=? k)%Z then drop (Z.to_nat k) xs
  else drop (length xs - Z.to_nat (- k)) xs.

(** [set(xs)] *)
Definition set (xs : list string) : gset string := list_to_set xs.

(** [len(s)] for a set *)
Definition len (s : gset string) : nat := size s.

(** [c[x] += 1] on a counter: a missing key counts 0. *)
Definition tally (c : gmap string nat) (x : string) : gmap string nat :=
  <[x := S (default 0 (c !! x))]> c.

(** [Counter(xs)]: one increment per element, in order. *)
Definition Counter (xs : list string) : gmap string nat :=
  foldl tally ∅ xs.

(** [{ **a, **b }]: the keys of both, the values of [b] win. *)
Definition dict_merge (a b : gmap string nat) : gmap string nat := b ∪ a.

(** [sum(d.values())] *)
Definition sum_values (d : gmap string nat) : nat :=
  sum_list (snd <$> map_to_list d).

(** [functools.reduce(f, xs)] without an initial value. *)
Definition reduce {A} (f : A → A → A) (xs : list A) : result A :=
  match xs with
  | [] => raise TypeError
  | x :: xs' => ret (foldl f x xs')
  end.

(** [itertools.combinations(xs, 2)] *)
Fixpoint combinations2 {A} (xs : list A) : list (A * A) :=
  match xs with
  | [] => []
  | x :: xs' => (pair x <$> xs') ++ combinations2 xs'
  end.

(** [len(a) / len(b)]: true division of two set sizes. *)
Definition truediv (a b : nat) : result Q :=
  if decide (b = 0) then raise ZeroDivisionError
  else ret (inject_Z (Z.of_nat a) / inject_Z (Z.of_nat b))%Q.

End Py.

Notation "'let!' x ':=' m 'in' k" := (Py.bind m (λ x, k))
  (at level 10, x name, m at level 100, k at level 200, only parsing).

(** ** The module [lib.py] *)

(** [Theme] is a type alias: at run time a theme is a plain [str]. *)
Abbreviation Theme := string (only parsing).

(** [Theme.__args__]: the literals of the [Theme] type, in source order. *)
Definition Theme__args__ : list Theme :=
  [ "分析思考"; "原点思考"; "未来志向"; "着想"; "収集心"; "内省"; "学習欲";
    "戦略性";
    "適応性"; "運命思考"; "成長促進"; "共感性"; "調和性"; "包含"; "個別化";
    "ポジティブ"; "親密性";
    "活発性"; "指令性"; "コミュニケーション"; "競争性"; "最上志向";
    "自己確信"; "自我"; "社交性";
    "達成欲"; "アレンジ"; "信念"; "公平性"; "慎重さ"; "規律性"; "目標志向";
    "責任感"; "回復志向" ].

(** The vocabulary as a set. *)
Definition Vocabulary : gset Theme := list_to_set Theme__args__.

Abbreviation ThemesTable := (list (string * list Theme)) (only parsing).

(** A [dict] never holds a key twice. *)
Definition wf_table (table : ThemesTable) : Prop := NoDup table.*1.

(** [table.values()] and [table.items()] *)
Definition values (table : ThemesTable) : list (list Theme) := table.*2.
Definition items (table : ThemesTable) : list (string * list Theme) := table.

(** [{ theme: 0 for theme in Theme.__args__ }] *)
Definition empty_hist : gmap Theme nat :=
  list_to_map ((λ theme, (theme, 0)) <$> Theme__args__).

Definition histogram (table : ThemesTable) (rate : Z)
  : gmap Theme nat * gmap Theme nat :=
  let empty := empty_hist in
  let s_hist :=
    Py.Counter (concat ((λ xs, Py.slice_to xs rate) <$> values table)) in
  let w_hist :=
    Py.Counter (concat ((λ xs, Py.slice_from xs (- rate)) <$> values table)) in
  (Py.dict_merge empty s_hist, Py.dict_merge empty w_hist).

Definition _jaccard (Xi Xj : gset Theme) : Py.result Q :=
  Py.truediv (Py.len (Xi ∩ Xj)) (Py.len (Xi ∪ Xj)).

Definition _distance (Xi Xj : list Theme) (rate : Z) : Py.result Q :=
  let! s_jaccard := _jaccard (Py.set (Py.slice_to Xi rate))
                             (Py.set (Py.slice_to Xj rate)) in
  let! w_jaccard := _jaccard (Py.set (Py.slice_from Xi (- rate)))
                             (Py.set (Py.slice_from Xj (- rate))) in
  Py.ret (1 - (s_jaccard + w_jaccard) / 2)%Q.

Definition distance_gen (table : ThemesTable) (rate : Z)
  : Py.generator (string * string * Q) :=
  Py.for_yield
    (λ '((name_i, Xi), (name_j, Xj)),
       let! d := _distance Xi Xj rate in Py.ret (name_i, name_j, d))
    (Py.combinations2 (items table)).

Definition _skipped_union (name_i : string) (table : ThemesTable) (rate : Z)
  : Py.result (gset Theme) :=
  let skipped :=
    (λ '(name_j, Xj), Py.set (Py.slice_to Xj rate))
      <$> filter (λ '(name_j, Xj), name_j ≠ name_i) (items table) in
  Py.reduce (λ x y, x ∪ y) skipped.

Definition specific_gen (table : ThemesTable) (rate : Z)
  : Py.generator (string * gset Theme) :=
  Py.for_yield
    (λ '(name_i, Xi),
       let! u := _skipped_union name_i table rate in
       Py.ret (name_i, Py.set (Py.slice_to Xi rate) ∖ u))
    (items table).

(** ** Specification-side vocabulary *)

(** Number of occurrences of [x] in [xs]. *)
Definition occurrences (x : Theme) (xs : list Theme) : nat :=
  length (filter (λ y, y = x) xs).

(** The first and the last [K] themes of a profile, truncated to the profile
    when it is shorter (the spec's truncation policy). *)
Definition first_K (K : nat) (xs : list Theme) : list Theme :=
  take (K `min` length xs) xs.
Definition last_K (K : nat) (xs : list Theme) : list Theme :=
  drop (length xs - K `min` length xs) xs.

(** The spec's top-K and bottom-K theme sets of a profile. *)
Definition top_set (K : nat) (xs : list Theme) : gset Theme :=
  list_to_set (first_K K xs).
Definition bottom_set (K : nat) (xs : list Theme) : gset Theme :=
  list_to_set (last_K K xs).

(** The strength set and the weakness set that [_distance] builds from a
    profile: [set(X[:rate])] and [set(X[-rate:])]. *)
Definition strengths (X : list Theme) (rate : Z) : gset Theme :=
  Py.set (Py.slice_to X rate).
Definition weaknesses (X : list Theme) (rate : Z) : gset Theme :=
  Py.set (Py.slice_from X (- rate)).

(** The profiles of all members other than the one at position [i]. *)
Definition others (i : nat) (table : ThemesTable) : list (list Theme) :=
  (delete i table).*2.

(** The themes [histogram] counts as strengths and as weaknesses. *)
Definition s_counted (table : ThemesTable) (rate : Z) : list Theme :=
  concat ((λ xs, Py.slice_to xs rate) <$> values table).
Definition w_counted (table : ThemesTable) (rate : Z) : list Theme :=
  concat ((λ xs, Py.slice_from xs (- rate)) <$> values table).

(** Sum over the members of [min(rate, len(profile))], as an integer. *)
Definition conserved_total (table : ThemesTable) (rate : Z) : Z :=
  foldr (λ xs acc, (rate `min` Z.of_nat (length xs) + acc)%Z) 0%Z
        (values table).

(** Every entry of every profile is a label of the vocabulary (the
    declared type [list[Theme]] of a profile, which Python does not check). *)
Definition well_typed (table : ThemesTable) : Prop :=
  Forall (λ '(_, xs), Forall (λ theme, theme ∈ Theme__args__) xs) table.

(** No profile is empty. *)
Definition profiles_nonempty (table : ThemesTable) : Prop :=
  Forall (λ '(_, xs), xs ≠ []) table.

(** ** Sample inputs *)

Definition team : ThemesTable :=
  [ ("Alice", ["分析思考"; "着想"; "内省"; "学習欲"; "戦略性"; "収集心"]);
    ("Bob",   ["着想"; "共感性"; "調和性"]);
    ("Carol", ["信念"; "分析思考"; "責任感"; "慎重さ"]) ].

Definition solo : ThemesTable := [ ("A", ["分析思考"]) ].

Definition stranger : ThemesTable := [ ("A", ["unknown"]) ].

Definition blanks : ThemesTable := [ ("A", []); ("B", []) ].

Definition profile_a : list Theme := ["着想"; "内省"; "信念"; "慎重さ"; "自我"].
Definition profile_b : list Theme := ["内省"; "着想"; "包含"; "自我"; "慎重さ"].

(** ** Further specification-side vocabulary *)

(** The number of profiles (slices of profiles) that hold a theme. *)
Definition members_with (theme : Theme) (slices : list (list Theme)) : nat :=
  length (filter (λ xs, theme ∈ xs) slices).

(** Sum over the members of the profile length shortened by [n], never
    below zero. *)
Definition shortened_total (table : ThemesTable) (n : nat) : nat :=
  sum_list ((λ xs, length xs - n) <$> values table).

(** Further sample inputs. *)
Definition reversed_team : ThemesTable := reverse team.

Definition twins : ThemesTable :=
  [ ("A", ["着想"; "内省"; "信念"]);
    ("B", ["内省"; "着想"; "自我"]);
    ("C", ["信念"; "自我"; "着想"]) ].

Definition profile_c : list Theme := ["学習欲"; "包含"; "収集心"; "自我"; "慎重さ"].

Definition mixed : ThemesTable :=
  [ ("A", ["着想"]); ("B", []); ("C", []) ].

Definition newcomers : ThemesTable :=
  [ ("Dave", ["着想"; "信念"; "自我"]); ("Erin", ["内省"; "着想"]) ].

Definition duo : ThemesTable :=
  [ ("A", ["着想"; "内省"; "信念"]); ("B", ["内省"; "自我"; "着想"]) ].

(** ** The driver's view of a histogram: dictionaries in insertion order

    The driver prints a histogram item by item, so the order of the keys
    shows. A [dict] is here the list of its items in insertion order. *)

Module Dict.

(** [d.get(k)] *)
Fixpoint get (d : list (string * nat)) (k : string) : option nat :=
  match d with
  | [] => None
  | (k', v) :: d' => if decide (k' = k) then Some v else get d' k
  end.

(** [d[k] = v]: an existing key keeps its place, a new key goes last. *)
Fixpoint setitem (d : list (string * nat)) (k : string) (v : nat)
  : list (string * nat) :=
  match d with
  | [] => [(k, v)]
  | (k', v') :: d' =>
      if decide (k' = k) then (k', v) :: d' else (k', v') :: setitem d' k v
  end.

(** [list(d.keys())] *)
Definition keys (d : list (string * nat)) : list string := d.*1.

(** [Counter(xs)], in insertion order. *)
Definition Counter (xs : list string) : list (string * nat) :=
  foldl (λ c x, setitem c x (S (default 0 (get c x)))) [] xs.

(** [{ **a, **b }], in insertion order. *)
Definition merge (a b : list (string * nat)) : list (string * nat) :=
  foldl (λ d '(k, v), setitem d k v) a b.

End Dict.

(** [{ theme: 0 for theme in Theme.__args__ }], in insertion order. *)
Definition empty_items : list (Theme * nat) :=
  foldl (λ d theme, Dict.setitem d theme 0) [] Theme__args__.

(** [histogram], with the insertion order of the two dictionaries. *)
Definition histogram_items (table : ThemesTable) (rate : Z)
  : list (Theme * nat) * list (Theme * nat) :=
  let empty := empty_items in
  let s_hist :=
    Dict.Counter (concat ((λ xs, Py.slice_to xs rate) <$> values table)) in
  let w_hist :=
    Dict.Counter (concat ((λ xs, Py.slice_from xs (- rate)) <$> values table)) in
  (Dict.merge empty s_hist, Dict.merge empty w_hist).

(** [pretty_histogram]: the lines it prints, one per item and an empty
    line at the end. *)
Definition pretty_histogram (hist : list (Theme * nat)) : list string :=
  ((λ '(theme, count), theme +:+ ": " +:+ pretty count) <$> hist)
  ++ [EmptyString].

(** The distinct elements of a list, in the order of their first
    occurrence. *)
Fixpoint distinct (xs : list string) : list string :=
  match xs with
  | [] => []
  | x :: xs' => x :: filter (λ y, y ≠ x) (distinct xs')
  end.

(** ** Slices *)

Section slices.
Context {A : Type}.
Implicit Types (xs : list A) (k : Z).

Lemma slice_to_nonneg xs k :
  (0 ≤ k)%Z → Py.slice_to xs k = take (Z.to_nat k) xs.
Proof. intros Hk. unfold Py.slice_to. by rewrite (Zle_imp_le_bool _ _ Hk). Qed.

Lemma slice_to_zero xs : Py.slice_to xs 0 = [].
Proof. by rewrite slice_to_nonneg. Qed.

Lemma slice_to_length xs k :
  (0 ≤ k)%Z → length (Py.slice_to xs k) = Z.to_nat k `min` length xs.
Proof. intros Hk. by rewrite slice_to_nonneg, length_take. Qed.

Lemma slice_from_minus_zero xs : Py.slice_from xs (- 0) = xs.
Proof. done. Qed.

Lemma slice_from_minus_pos xs k :
  (1 ≤ k)%Z →
  Py.slice_from xs (- k) = drop (length xs - Z.to_nat k) xs.
Proof.
  intros Hk. unfold Py.slice_from.
  destruct (0 <=? - k)%Z eqn:E; [apply Z.leb_le in E; lia|].
  by rewrite Z.opp_involutive.
Qed.

Lemma slice_from_minus_length xs k :
  (1 ≤ k)%Z →
  length (Py.slice_from xs (- k)) = Z.to_nat k `min` length xs.
Proof. intros Hk. rewrite slice_from_minus_pos, length_drop by done. lia. Qed.

Lemma slice_to_subseteq xs k : Py.slice_to xs k ⊆ xs.
Proof.
  unfold Py.slice_to. intros x Hx.
  destruct (0 <=? k)%Z; eapply subseteq_take; eauto.
Qed.

Lemma slice_from_subseteq xs k : Py.slice_from xs k ⊆ xs.
Proof.
  unfold Py.slice_from. intros x Hx.
  destruct (0 <=? k)%Z; eapply subseteq_drop; eauto.
Qed.

Lemma slice_to_nil_inv xs k :
  (1 ≤ k)%Z → Py.slice_to xs k = [] → xs = [].
Proof.
  intros Hk. rewrite slice_to_nonneg by lia.
  destruct xs as [|x xs]; [done|].
  destruct (Z.to_nat k) eqn:E; [lia|done].
Qed.

Lemma slice_from_nil_inv xs k :
  (1 ≤ k)%Z → Py.slice_from xs (- k) = [] → xs = [].
Proof.
  intros Hk H. apply (f_equal length) in H.
  rewrite slice_from_minus_length in H by done.
  destruct xs; [done|]. simpl in H. lia.
Qed.
End slices.

Lemma slice_to_first_K (xs : list Theme) (k : Z) :
  (0 ≤ k)%Z → Py.slice_to xs k = first_K (Z.to_nat k) xs.
Proof.
  intros Hk. rewrite slice_to_nonneg by done. unfold first_K.
  destruct (decide (Z.to_nat k ≤ length xs)).
  - by rewrite Nat.min_l.
  - rewrite Nat.min_r, !take_ge by lia. done.
Qed.

Lemma slice_from_last_K (xs : list Theme) (k : Z) :
  (1 ≤ k)%Z → Py.slice_from xs (- k) = last_K (Z.to_nat k) xs.
Proof.
  intros Hk. rewrite slice_from_minus_pos by done. unfold last_K.
  f_equal. lia.
Qed.

Lemma elem_of_concat {A} (x : A) (ls : list (list A)) :
  x ∈ concat ls ↔ ∃ l, x ∈ l ∧ l ∈ ls.
Proof.
  induction ls as [|l ls IH]; simpl.
  - split; [by intros ?%elem_of_nil|by intros (? & _ & ?%elem_of_nil)].
  - rewrite elem_of_app, IH. split.
    + intros [H|(l' & H1 & H2)]; [exists l|exists l']; split; try done.
      * by left.
      * by right.
    + intros (l' & H1 & [->|H2]%elem_of_cons); [by left|right; eauto].
Qed.

(** ** Counters and dictionaries of counts *)

Lemma sum_list_perm (l k : list nat) : l ≡ₚ k → sum_list l = sum_list k.
Proof. induction 1; simpl; lia. Qed.

Lemma sum_values_empty : Py.sum_values ∅ = 0.
Proof. unfold Py.sum_values. by rewrite map_to_list_empty. Qed.

Lemma sum_values_insert_fresh (m : gmap string nat) (x : string) (n : nat) :
  m !! x = None → Py.sum_values (<[x := n]> m) = n + Py.sum_values m.
Proof.
  intros Hx. unfold Py.sum_values.
  by rewrite (sum_list_perm _ _ (fmap_Permutation snd _ _
                (map_to_list_insert m x n Hx))).
Qed.

Lemma sum_values_lookup (m : gmap string nat) (x : string) (n : nat) :
  m !! x = Some n → Py.sum_values m = n + Py.sum_values (delete x m).
Proof.
  intros Hx. unfold Py.sum_values.
  by rewrite <- (sum_list_perm _ _ (fmap_Permutation snd _ _
                   (map_to_list_delete m x n Hx))).
Qed.

Section counter.
Implicit Types (m : gmap string nat) (x : string) (xs : list string).

Lemma sum_values_tally m x :
  Py.sum_values (Py.tally m x) = S (Py.sum_values m).
Proof.
  unfold Py.tally. destruct (m !! x) as [n|] eqn:Hx; simpl.
  - rewrite <- insert_delete_eq.
    rewrite sum_values_insert_fresh by apply lookup_delete_eq.
    rewrite (sum_values_lookup m x n Hx). lia.
  - rewrite sum_values_insert_fresh by done. lia.
Qed.

Lemma tally_fold_sum xs m :
  Py.sum_values (foldl Py.tally m xs) = Py.sum_values m + length xs.
Proof.
  revert m. induction xs as [|x xs IH]; intros m; simpl; [lia|].
  rewrite IH, sum_values_tally. lia.
Qed.

Lemma tally_fold_dom xs m :
  dom (foldl Py.tally m xs) = dom m ∪ list_to_set xs.
Proof.
  revert m. induction xs as [|x xs IH]; intros m; simpl.
  - by rewrite (right_id_L ∅ (∪)).
  - rewrite IH. unfold Py.tally. rewrite dom_insert_L.
    rewrite (comm_L (∪) {[x]} (dom m)). by rewrite (assoc_L (∪)).
Qed.

Lemma tally_fold_count xs m x :
  default 0 (foldl Py.tally m xs !! x)
  = default 0 (m !! x) + occurrences x xs.
Proof.
  revert m. induction xs as [|y xs IH]; intros m; simpl.
  - unfold occurrences. simpl. lia.
  - rewrite IH. unfold Py.tally, occurrences.
    rewrite lookup_insert.
    destruct (decide (y = x)) as [->|Hne].
    + rewrite filter_cons_True by done. simpl. lia.
    + by rewrite filter_cons_False.
Qed.

Lemma Counter_sum xs : Py.sum_values (Py.Counter xs) = length xs.
Proof. unfold Py.Counter. by rewrite tally_fold_sum, sum_values_empty. Qed.

Lemma Counter_dom xs : dom (Py.Counter xs) = list_to_set xs.
Proof.
  unfold Py.Counter. by rewrite tally_fold_dom, dom_empty_L, (left_id_L ∅ (∪)).
Qed.

Lemma Counter_count xs x :
  default 0 (Py.Counter xs !! x) = occurrences x xs.
Proof. unfold Py.Counter. by rewrite tally_fold_count, lookup_empty. Qed.
End counter.

Lemma Counter_nil : Py.Counter [] = ∅.
Proof. done. Qed.

(** Merging a dictionary of zeros under a counter keeps the total. *)
Lemma sum_values_merge_zeros (a b : gmap string nat) :
  (∀ k v, a !! k = Some v → v = 0) →
  Py.sum_values (Py.dict_merge a b) = Py.sum_values b.
Proof.
  unfold Py.dict_merge.
  induction a as [|k v a Hk IH] using map_ind; intros Hz.
  - by rewrite (right_id_L ∅ (∪)).
  - assert (v = 0) as -> by (apply (Hz k); apply lookup_insert_eq).
    assert (∀ k' v', a !! k' = Some v' → v' = 0) as Hz'.
    { intros k' v' H'. apply (Hz k'). rewrite lookup_insert_ne; [done|].
      intros ->. congruence. }
    destruct (b !! k) as [n|] eqn:Hb.
    + assert (b ∪ <[k:=0]> a = b ∪ a) as ->; [|by apply IH].
      apply map_eq. intros j. rewrite !lookup_union.
      destruct (decide (k = j)) as [<-|Hne].
      * rewrite Hb, lookup_insert_eq, Hk. done.
      * by rewrite lookup_insert_ne.
    + rewrite <- insert_union_r by done.
      rewrite sum_values_insert_fresh.
      * rewrite IH by done. lia.
      * apply lookup_union_None. done.
  Qed.

Lemma dom_dict_merge (a b : gmap string nat) :
  dom (Py.dict_merge a b) = dom a ∪ dom b.
Proof. unfold Py.dict_merge. rewrite dom_union_L. apply (comm_L (∪)). Qed.

(** The values of [b] win in [{ **a, **b }]. *)
Lemma lookup_dict_merge (a b : gmap string nat) (k : string) :
  Py.dict_merge a b !! k =
    match b !! k with Some v => Some v | None => a !! k end.
Proof.
  unfold Py.dict_merge. rewrite lookup_union.
  destruct (b !! k), (a !! k); done.
Qed.

(** ** The vocabulary and the zero-filled dictionary *)

Lemma Theme__args___NoDup : NoDup Theme__args__.
Proof. apply (bool_decide_unpack (NoDup Theme__args__)). by vm_compute. Qed.

Lemma Theme__args___length : length Theme__args__ = 34.
Proof. reflexivity. Qed.

Lemma Vocabulary_size : size Vocabulary = 34.
Proof.
  unfold Vocabulary.
  by rewrite size_list_to_set, Theme__args___length
    by apply Theme__args___NoDup.
Qed.

Lemma empty_hist_dom : dom empty_hist = Vocabulary.
Proof.
  unfold empty_hist, Vocabulary.
  rewrite dom_list_to_map_L. by rewrite <- list_fmap_compose, list_fmap_id.
Qed.

Lemma empty_hist_zero (k : Theme) (v : nat) :
  empty_hist !! k = Some v → v = 0.
Proof.
  unfold empty_hist. intros H%elem_of_list_to_map_2.
  apply list_elem_of_fmap in H as (t & [= _ ->] & _). done.
Qed.

(** ** Histogram *)

Section histogram_facts.
Implicit Types (table : ThemesTable) (rate : Z).

Lemma histogram_unfold table rate :
  histogram table rate
  = (Py.dict_merge empty_hist (Py.Counter (s_counted table rate)),
     Py.dict_merge empty_hist (Py.Counter (w_counted table rate))).
Proof. done. Qed.

(** The key sets: the vocabulary and whatever label was counted. *)
Lemma histogram_dom table rate :
  dom (histogram table rate).1
    = Vocabulary ∪ list_to_set (s_counted table rate)
  ∧ dom (histogram table rate).2
    = Vocabulary ∪ list_to_set (w_counted table rate).
Proof.
  rewrite histogram_unfold. cbn [fst snd].
  by rewrite !dom_dict_merge, !Counter_dom, empty_hist_dom.
Qed.

Lemma histogram_sum table rate :
  Py.sum_values (histogram table rate).1 = length (s_counted table rate)
  ∧ Py.sum_values (histogram table rate).2 = length (w_counted table rate).
Proof.
  rewrite histogram_unfold. cbn [fst snd].
  by rewrite !sum_values_merge_zeros, !Counter_sum
    by apply empty_hist_zero.
Qed.

(** Each count is the number of occurrences among the counted themes. *)
Lemma histogram_count table rate theme :
  default 0 ((histogram table rate).1 !! theme)
    = occurrences theme (s_counted table rate)
  ∧ default 0 ((histogram table rate).2 !! theme)
    = occurrences theme (w_counted table rate).
Proof.
  rewrite histogram_unfold. cbn [fst snd]. rewrite !lookup_dict_merge.
  rewrite <- !Counter_count.
  split.
  - destruct (Py.Counter (s_counted table rate) !! theme); [done|].
    destruct (empty_hist !! theme) eqn:E; [|done].
    by apply empty_hist_zero in E as ->.
  - destruct (Py.Counter (w_counted table rate) !! theme); [done|].
    destruct (empty_hist !! theme) eqn:E; [|done].
    by apply empty_hist_zero in E as ->.
Qed.

Lemma well_typed_elem table name xs theme :
  well_typed table → (name, xs) ∈ table → theme ∈ xs → theme ∈ Vocabulary.
Proof.
  unfold well_typed. rewrite Forall_forall. intros Hwt Hmem Hin.
  specialize (Hwt _ Hmem). simpl in Hwt. rewrite Forall_forall in Hwt.
  unfold Vocabulary. rewrite elem_of_list_to_set. by apply Hwt.
Qed.

Lemma s_counted_well_typed table rate :
  well_typed table → list_to_set (s_counted table rate) ⊆ Vocabulary.
Proof.
  intros Hwt theme. rewrite elem_of_list_to_set. unfold s_counted, values.
  intros (ys & Hys & Hin)%elem_of_concat.
  apply list_elem_of_fmap in Hin as (xs & -> & Hxs).
  apply list_elem_of_fmap in Hxs as ([name xs'] & -> & Hmem).
  eapply well_typed_elem; [done..|]. by eapply slice_to_subseteq.
Qed.

Lemma w_counted_well_typed table rate :
  well_typed table → list_to_set (w_counted table rate) ⊆ Vocabulary.
Proof.
  intros Hwt theme. rewrite elem_of_list_to_set. unfold w_counted, values.
  intros (ys & Hys & Hin)%elem_of_concat.
  apply list_elem_of_fmap in Hin as (xs & -> & Hxs).
  apply list_elem_of_fmap in Hxs as ([name xs'] & -> & Hmem).
  eapply well_typed_elem; [done..|]. by eapply slice_from_subseteq.
Qed.

Lemma s_counted_length table rate :
  (0 ≤ rate)%Z →
  Z.of_nat (length (s_counted table rate)) = conserved_total table rate.
Proof.
  intros Hr. unfold s_counted, conserved_total.
  induction (values table) as [|xs l IH]; [done|].
  csimpl. rewrite length_app, slice_to_length by done. lia.
Qed.

Lemma w_counted_length table rate :
  (1 ≤ rate)%Z →
  Z.of_nat (length (w_counted table rate)) = conserved_total table rate.
Proof.
  intros Hr. unfold w_counted, conserved_total.
  induction (values table) as [|xs l IH]; [done|].
  csimpl. rewrite length_app, slice_from_minus_length by done. lia.
Qed.

Lemma s_counted_zero table : s_counted table 0 = [].
Proof.
  unfold s_counted. induction (values table) as [|xs l IH]; [done|].
  rewrite fmap_cons. cbn [concat]. by rewrite slice_to_zero, IH.
Qed.

Lemma w_counted_zero table : w_counted table 0 = concat (values table).
Proof.
  unfold w_counted. f_equal. apply list_fmap_id.
Qed.
End histogram_facts.

(** ** Jaccard similarity and distance *)

Section arithmetic.
Local Open Scope Q_scope.

Lemma truediv_inl (a b : nat) (e : Py.exn) :
  Py.truediv a b = inl e ↔ e = Py.ZeroDivisionError ∧ b = 0%nat.
Proof.
  unfold Py.truediv, Py.raise, Py.ret. destruct (decide (b = 0%nat)).
  - split; [by intros [= <-]|by intros [-> _]].
  - split; [done|by intros [_ ?]].
Qed.

Lemma truediv_inr (a b : nat) :
  b ≠ 0%nat →
  Py.truediv a b = inr (inject_Z (Z.of_nat a) / inject_Z (Z.of_nat b)).
Proof. intros Hb. unfold Py.truediv. by rewrite decide_False. Qed.

(** A proper fraction of two counts lies between 0 and 1. *)
Lemma fraction_bounds (a b : nat) :
  (a ≤ b)%nat → b ≠ 0%nat →
  0 <= inject_Z (Z.of_nat a) / inject_Z (Z.of_nat b) <= 1.
Proof.
  intros Hab Hb.
  assert (0 < inject_Z (Z.of_nat b)) as Hpos.
  { change 0 with (inject_Z 0). rewrite <- Zlt_Qlt. lia. }
  split.
  - apply Qle_shift_div_l; [done|]. rewrite Qmult_0_l.
    change 0 with (inject_Z 0). rewrite <- Zle_Qle. lia.
  - apply Qle_shift_div_r; [done|]. rewrite Qmult_1_l.
    rewrite <- Zle_Qle. lia.
Qed.

Lemma fraction_same (a : nat) :
  a ≠ 0%nat → inject_Z (Z.of_nat a) / inject_Z (Z.of_nat a) == 1.
Proof.
  intros Ha. apply Qmult_inv_r. change 0 with (inject_Z 0).
  rewrite inject_Z_injective. lia.
Qed.

Lemma fraction_zero (b : nat) :
  inject_Z (Z.of_nat 0) / inject_Z (Z.of_nat b) == 0.
Proof. unfold Qdiv. simpl. apply Qmult_0_l. Qed.

(** The distance formula applied to two fractions in [0, 1]. *)
Lemma distance_formula_bounds (s w : Q) :
  0 <= s <= 1 → 0 <= w <= 1 → 0 <= 1 - (s + w) / 2 <= 1.
Proof.
  intros [??] [??]. unfold Qdiv. change (/ 2) with (1 # 2). split; lra.
Qed.
End arithmetic.

Section jaccard.
Implicit Types (Xi Xj : gset string).

Lemma size_empty_iff_L (X : gset string) : size X = 0 ↔ X = ∅.
Proof. by rewrite size_empty_iff, leibniz_equiv_iff. Qed.

Lemma _jaccard_inl Xi Xj e :
  _jaccard Xi Xj = inl e ↔ e = Py.ZeroDivisionError ∧ Xi ∪ Xj = ∅.
Proof.
  unfold _jaccard, Py.len. rewrite truediv_inl.
  by rewrite size_empty_iff_L.
Qed.

Lemma _jaccard_inr Xi Xj :
  Xi ∪ Xj ≠ ∅ →
  _jaccard Xi Xj
  = inr (inject_Z (Z.of_nat (size (Xi ∩ Xj)))
         / inject_Z (Z.of_nat (size (Xi ∪ Xj))))%Q.
Proof.
  intros Hne. unfold _jaccard, Py.len. apply truediv_inr.
  by rewrite size_empty_iff_L.
Qed.

Lemma _jaccard_comm Xi Xj : _jaccard Xi Xj = _jaccard Xj Xi.
Proof.
  unfold _jaccard. by rewrite (comm_L (∩) Xi Xj), (comm_L (∪) Xi Xj).
Qed.

Lemma _jaccard_bounds Xi Xj q :
  _jaccard Xi Xj = inr q → (0 <= q <= 1)%Q.
Proof.
  destruct (decide (Xi ∪ Xj = ∅)) as [He|Hne].
  - intros H. by rewrite (proj2 (_jaccard_inl Xi Xj _) (conj eq_refl He)) in H.
  - rewrite _jaccard_inr by done. intros [= <-].
    apply fraction_bounds.
    + apply subseteq_size. set_solver.
    + by rewrite size_empty_iff_L.
Qed.

Lemma _jaccard_same Xi :
  Xi ≠ ∅ → ∃ q, _jaccard Xi Xi = inr q ∧ (q == 1)%Q.
Proof.
  intros Hne.
  assert (Xi ∪ Xi = Xi) as Hu by set_solver.
  assert (Xi ∩ Xi = Xi) as Hi by set_solver.
  eexists. split.
  - apply _jaccard_inr. by rewrite Hu.
  - rewrite Hu, Hi. apply fraction_same. by rewrite size_empty_iff_L.
Qed.

Lemma _jaccard_disjoint Xi Xj :
  Xi ## Xj → Xi ∪ Xj ≠ ∅ → ∃ q, _jaccard Xi Xj = inr q ∧ (q == 0)%Q.
Proof.
  intros Hd Hne. eexists. split; [by apply _jaccard_inr|].
  assert (Xi ∩ Xj = ∅) as -> by set_solver.
  rewrite size_empty. apply fraction_zero.
Qed.
End jaccard.

Section distance.
Implicit Types (Xi Xj : list string) (rate : Z).

Lemma _distance_unfold Xi Xj rate :
  _distance Xi Xj rate
  = Py.bind (_jaccard (strengths Xi rate) (strengths Xj rate)) (λ s,
    Py.bind (_jaccard (weaknesses Xi rate) (weaknesses Xj rate)) (λ w,
    Py.ret (1 - (s + w) / 2)%Q)).
Proof. done. Qed.

Lemma _distance_comm Xi Xj rate :
  _distance Xi Xj rate = _distance Xj Xi rate.
Proof.
  rewrite !_distance_unfold.
  rewrite (_jaccard_comm (strengths Xi rate)).
  by rewrite (_jaccard_comm (weaknesses Xi rate)).
Qed.

(** The only failure of [_distance] is a division by an empty union. *)
Lemma _distance_inl Xi Xj rate e :
  _distance Xi Xj rate = inl e
  ↔ e = Py.ZeroDivisionError
    ∧ (strengths Xi rate ∪ strengths Xj rate = ∅
       ∨ weaknesses Xi rate ∪ weaknesses Xj rate = ∅).
Proof.
  rewrite _distance_unfold.
  destruct (_jaccard (strengths Xi rate) (strengths Xj rate)) as [e1|s] eqn:Es.
  - apply _jaccard_inl in Es as [-> Hs]. simpl.
    split; [intros [= <-]; eauto|by intros [-> _]].
  - assert (strengths Xi rate ∪ strengths Xj rate ≠ ∅) as Hs.
    { intros He. by rewrite (proj2 (_jaccard_inl _ _ _) (conj eq_refl He)) in Es. }
    simpl.
    destruct (_jaccard (weaknesses Xi rate) (weaknesses Xj rate)) as [e2|w] eqn:Ew.
    + apply _jaccard_inl in Ew as [-> Hw]. simpl.
      split; [intros [= <-]; eauto|by intros [-> _]].
    + assert (weaknesses Xi rate ∪ weaknesses Xj rate ≠ ∅) as Hw.
      { intros He. by rewrite (proj2 (_jaccard_inl _ _ _) (conj eq_refl He)) in Ew. }
      simpl. split; [done|]. intros [_ [?|?]]; done.
Qed.

Lemma _distance_inr Xi Xj rate :
  strengths Xi rate ∪ strengths Xj rate ≠ ∅ →
  weaknesses Xi rate ∪ weaknesses Xj rate ≠ ∅ →
  ∃ s w,
    _jaccard (strengths Xi rate) (strengths Xj rate) = inr s
    ∧ _jaccard (weaknesses Xi rate) (weaknesses Xj rate) = inr w
    ∧ _distance Xi Xj rate = inr (1 - (s + w) / 2)%Q.
Proof.
  intros Hs Hw. rewrite _distance_unfold.
  rewrite (_jaccard_inr _ _ Hs), (_jaccard_inr _ _ Hw). eauto.
Qed.

Lemma set_empty_inv (xs : list string) : Py.set xs = ∅ → xs = [].
Proof.
  destruct xs as [|x xs]; [done|]. unfold Py.set. intros H.
  assert (x ∈ (∅ : gset string)) as []%not_elem_of_empty.
  rewrite <- H. set_solver.
Qed.

Lemma strengths_nil_inv Xi rate :
  (1 ≤ rate)%Z → strengths Xi rate = ∅ → Xi = [].
Proof.
  intros Hr H%set_empty_inv. by eapply slice_to_nil_inv.
Qed.

Lemma weaknesses_nil_inv Xi rate :
  (1 ≤ rate)%Z → weaknesses Xi rate = ∅ → Xi = [].
Proof.
  intros Hr H%set_empty_inv. by eapply slice_from_nil_inv.
Qed.

Lemma strengths_rate_zero Xi : strengths Xi 0 = ∅.
Proof. unfold strengths. by rewrite slice_to_zero. Qed.

Lemma strengths_top_set Xi rate :
  (0 ≤ rate)%Z → strengths Xi rate = top_set (Z.to_nat rate) Xi.
Proof. intros Hr. unfold strengths, top_set. by rewrite slice_to_first_K. Qed.

Lemma weaknesses_bottom_set Xi rate :
  (1 ≤ rate)%Z → weaknesses Xi rate = bottom_set (Z.to_nat rate) Xi.
Proof.
  intros Hr. unfold weaknesses, bottom_set. by rewrite slice_from_last_K.
Qed.

(** With [rate = 0] both strength sets are empty, so every pair fails. *)
Lemma _distance_rate_zero Xi Xj :
  _distance Xi Xj 0 = inl Py.ZeroDivisionError.
Proof.
  apply _distance_inl. split; [done|]. left.
  rewrite !strengths_rate_zero. set_solver.
Qed.

(** Two empty profiles fail whatever the rate. *)
Lemma _distance_both_empty rate :
  _distance [] [] rate = inl Py.ZeroDivisionError.
Proof.
  apply _distance_inl. split; [done|]. left.
  unfold strengths, Py.slice_to. destruct (0 <=? rate)%Z; simpl.
  - rewrite take_nil. set_solver.
  - set_solver.
Qed.
End distance.

(** ** Generators *)

Section generators.
Context {A B : Type}.
Implicit Types (f : A → Py.result B) (l : list A).

(** A loop that never fails yields one item per element, in order. *)
Lemma for_yield_exhausted f l :
  Py.raised (Py.for_yield f l) = None →
  Forall2 (λ x b, f x = inr b) l (Py.yielded (Py.for_yield f l)).
Proof.
  induction l as [|x l IH]; simpl; [constructor|].
  destruct (f x) as [e|b] eqn:E; simpl; [done|].
  intros H. constructor; auto.
Qed.

Lemma for_yield_total f l :
  Forall (λ x, ∃ b, f x = inr b) l →
  Py.raised (Py.for_yield f l) = None.
Proof.
  induction 1 as [|x l [b Hb] _ IH]; simpl; [done|]. by rewrite Hb.
Qed.

(** A loop whose first element fails yields nothing. *)
Lemma for_yield_first_raises f x l e :
  f x = inl e → Py.for_yield f (x :: l) = Py.Raise e.
Proof. intros H. simpl. by rewrite H. Qed.

Lemma for_yield_raised f l e :
  Py.raised (Py.for_yield f l) = Some e → ∃ x, x ∈ l ∧ f x = inl e.
Proof.
  induction l as [|x l IH]; simpl; [done|].
  destruct (f x) as [e'|b] eqn:E; simpl.
  - intros [= ->]. exists x. split; [by left|done].
  - intros (y & Hy & Hf)%IH. exists y. split; [by right|done].
Qed.
End generators.

(** ** 2-combinations *)

Section combinations.
Context {A : Type}.
Implicit Types (x y : A) (l : list A).

Lemma combinations2_length_double l :
  2 * length (Py.combinations2 l) = length l * (length l - 1).
Proof.
  induction l as [|x l IH]; simpl; [done|].
  rewrite length_app, length_fmap. nia.
Qed.

Lemma combinations2_length l :
  length (Py.combinations2 l) = length l * (length l - 1) / 2.
Proof.
  rewrite <- combinations2_length_double.
  by rewrite Nat.mul_comm, Nat.div_mul.
Qed.

(** The pairs are those of an earlier and a later position. *)
Lemma elem_of_combinations2 l x y :
  (x, y) ∈ Py.combinations2 l
  ↔ ∃ i j, i < j ∧ l !! i = Some x ∧ l !! j = Some y.
Proof.
  induction l as [|z l IH]; simpl.
  - split; [by intros ?%elem_of_nil|by intros (? & ? & _ & ? & _)].
  - rewrite elem_of_app, list_elem_of_fmap, IH. split.
    + intros [(y' & [= -> ->] & Hy)|(i & j & Hij & Hi & Hj)].
      * apply list_elem_of_lookup in Hy as [k Hk].
        exists 0, (S k). repeat split; [lia|done].
      * exists (S i), (S j). repeat split; [lia|done..].
    + intros (i & j & Hij & Hi & Hj).
      destruct j as [|j]; [lia|]. simpl in Hj.
      destruct i as [|i]; simpl in Hi.
      * injection Hi as ->. left. exists y. split; [done|].
        by eapply list_elem_of_lookup_2.
      * right. exists i, j. repeat split; [lia|done..].
Qed.

Lemma combinations2_NoDup l : NoDup l → NoDup (Py.combinations2 l).
Proof.
  induction 1 as [|x l Hx Hl IH]; simpl; [constructor|].
  apply NoDup_app. split_and!.
  - apply NoDup_fmap_2; [|done]. by intros ?? [=].
  - intros [x' y] (y' & [= -> ->] & Hy)%list_elem_of_fmap.
    intros (i & j & _ & Hi & _)%elem_of_combinations2.
    apply Hx. by eapply list_elem_of_lookup_2.
  - done.
Qed.

(** A pair is never emitted in both orders. *)
Lemma combinations2_asym l x y :
  NoDup l → (x, y) ∈ Py.combinations2 l → (y, x) ∉ Py.combinations2 l.
Proof.
  intros Hl (i & j & Hij & Hi & Hj)%elem_of_combinations2
            (i' & j' & Hij' & Hi' & Hj')%elem_of_combinations2.
  assert (i = j') by (by eapply NoDup_lookup).
  assert (j = i') by (by eapply NoDup_lookup).
  lia.
Qed.

(** No element is paired with itself. *)
Lemma combinations2_irrefl l x :
  NoDup l → (x, x) ∉ Py.combinations2 l.
Proof.
  intros Hl (i & j & Hij & Hi & Hj)%elem_of_combinations2.
  assert (i = j) by (by eapply NoDup_lookup). lia.
Qed.
End combinations.

Lemma combinations2_fmap {A B} (f : A → B) (l : list A) :
  Py.combinations2 (f <$> l) = prod_map f f <$> Py.combinations2 l.
Proof.
  induction l as [|x l IH]; [done|]. csimpl.
  rewrite fmap_app, IH. f_equal.
  rewrite <- !list_fmap_compose. by apply list_fmap_ext.
Qed.

(** ** The union over the other members *)

Section skipped_union.
Implicit Types (table : ThemesTable) (rate : Z) (name : string).

Lemma foldl_union (X : gset string) (Xs : list (gset string)) :
  foldl (λ x y, x ∪ y) X Xs = X ∪ ⋃ Xs.
Proof.
  revert X. induction Xs as [|Y Xs IH]; intros X; simpl.
  - by rewrite (right_id_L ∅ (∪)).
  - by rewrite IH, (assoc_L (∪)).
Qed.

Lemma reduce_union (Xs : list (gset string)) :
  Xs ≠ [] → Py.reduce (λ x y, x ∪ y) Xs = inr (⋃ Xs).
Proof. destruct Xs as [|X Xs]; [done|]. intros _. simpl. by rewrite foldl_union. Qed.

Lemma filter_keep_all name table :
  name ∉ table.*1 →
  filter (λ '(name_j, _), name_j ≠ name) table = table.
Proof.
  induction table as [|[n X] table IH]; [done|].
  rewrite fmap_cons. cbn [fst].
  intros [Hn Hrest]%not_elem_of_cons.
  rewrite filter_cons_True by done. by rewrite IH.
Qed.

(** In a dictionary, skipping a member by name removes exactly its entry. *)
Lemma filter_other_names table i name_i Xi :
  wf_table table →
  table !! i = Some (name_i, Xi) →
  filter (λ '(name_j, _), name_j ≠ name_i) table = delete i table.
Proof.
  unfold wf_table. revert i.
  induction table as [|[n X] table IH]; intros i; [done|].
  rewrite fmap_cons. cbn [fst].
  intros [Hn Hrest]%NoDup_cons Hi.
  destruct i as [|i]; simpl in Hi.
  - injection Hi as -> ->.
    rewrite filter_cons_False by (intros H; by apply H).
    by apply filter_keep_all.
  - assert (n ≠ name_i) as Hne.
    { intros ->. apply Hn.
      apply list_elem_of_lookup_2 in Hi.
      by apply (list_elem_of_fmap_2 fst) in Hi. }
    rewrite filter_cons_True by done. simpl. f_equal. by apply IH.
Qed.

Lemma _skipped_union_others table rate i name_i Xi :
  wf_table table →
  2 ≤ length table →
  table !! i = Some (name_i, Xi) →
  _skipped_union name_i table rate
  = inr (⋃ ((λ Xj, strengths Xj rate) <$> others i table)).
Proof.
  intros Hwf Hlen Hi. unfold _skipped_union, items, others.
  rewrite (filter_other_names _ _ _ _ Hwf Hi).
  rewrite reduce_union.
  - do 2 f_equal. rewrite <- list_fmap_compose.
    apply list_fmap_ext. by intros ? [??] ?.
  - intros H%fmap_nil_inv. apply (f_equal length) in H.
    rewrite length_delete in H by eauto. simpl in H. lia.
Qed.

(** With a single member nothing is left to reduce. *)
Lemma _skipped_union_single name X rate :
  _skipped_union name [(name, X)] rate = inl Py.TypeError.
Proof.
  unfold _skipped_union, items.
  rewrite filter_cons_False by (intros H; by apply H). done.
Qed.

Lemma specific_gen_single name X rate :
  specific_gen [(name, X)] rate = Py.Raise Py.TypeError.
Proof.
  unfold specific_gen, items. apply for_yield_first_raises.
  by rewrite _skipped_union_single.
Qed.

(** With two members or more the generator is exhausted without error and
    yields, for each position, the strengths no other position has. *)
Lemma specific_gen_exhausted table rate :
  wf_table table →
  2 ≤ length table →
  Py.raised (specific_gen table rate) = None
  ∧ ∀ i name_i Xi,
      table !! i = Some (name_i, Xi) →
      Py.yielded (specific_gen table rate) !! i
      = Some (name_i,
              strengths Xi rate
                ∖ ⋃ ((λ Xj, strengths Xj rate) <$> others i table)).
Proof.
  intros Hwf Hlen.
  assert (Py.raised (specific_gen table rate) = None) as Hr.
  { apply for_yield_total. apply Forall_lookup. intros i [name_i Xi] Hi.
    rewrite (_skipped_union_others _ _ _ _ _ Hwf Hlen Hi). simpl. eauto. }
  split; [done|]. intros i name_i Xi Hi.
  apply for_yield_exhausted in Hr.
  destruct (Forall2_lookup_l _ _ _ _ _ Hr Hi) as (y & Hy & Hf).
  rewrite (_skipped_union_others _ _ _ _ _ Hwf Hlen Hi) in Hf.
  simpl in Hf. injection Hf as <-. done.
Qed.

Lemma specific_gen_length table rate :
  Py.raised (specific_gen table rate) = None →
  length (Py.yielded (specific_gen table rate)) = length table.
Proof.
  intros Hr%for_yield_exhausted. by apply Forall2_length in Hr.
Qed.

Lemma elem_of_others table i j name_j Xj :
  j ≠ i → table !! j = Some (name_j, Xj) → Xj ∈ others i table.
Proof.
  intros Hne Hj. unfold others.
  apply (list_elem_of_fmap_2 snd _ (name_j, Xj)).
  apply list_elem_of_lookup.
  destruct (decide (j < i)).
  - exists j. by rewrite list_lookup_delete_lt.
  - destruct j as [|j]; [lia|]. exists j.
    rewrite list_lookup_delete_ge by lia. done.
Qed.

Lemma elem_of_others_inv table i Xj :
  Xj ∈ others i table →
  ∃ j name_j, j ≠ i ∧ table !! j = Some (name_j, Xj).
Proof.
  unfold others. intros ([name_j X] & -> & Hin)%list_elem_of_fmap.
  apply list_elem_of_lookup in Hin as [k Hk].
  rewrite list_lookup_delete in Hk.
  destruct (decide (k < i)); [exists k|exists (S k)]; exists name_j;
    (split; [lia|done]).
Qed.
End skipped_union.

(** ** The pairwise generator *)

Section distance_gen_facts.
Implicit Types (table : ThemesTable) (rate : Z).

(** What [distance_gen] computes for one pair of items. *)
Lemma distance_gen_exhausted table rate :
  Py.raised (distance_gen table rate) = None →
  Forall2
    (λ '((name_i, Xi), (name_j, Xj)) triple,
       ∃ d, _distance Xi Xj rate = inr d ∧ triple = (name_i, name_j, d))
    (Py.combinations2 table)
    (Py.yielded (distance_gen table rate)).
Proof.
  intros Hr%for_yield_exhausted. eapply Forall2_impl; [exact Hr|].
  intros [[name_i Xi] [name_j Xj]] triple. simpl.
  destruct (_distance Xi Xj rate) as [e|d]; simpl; [done|].
  intros [= <-]. eauto.
Qed.

(** The names of the yielded pairs are the 2-combinations of the keys. *)
Lemma distance_gen_names table rate :
  Py.raised (distance_gen table rate) = None →
  (Py.yielded (distance_gen table rate)).*1 = Py.combinations2 table.*1.
Proof.
  intros Hr%distance_gen_exhausted. rewrite combinations2_fmap.
  induction Hr as [|[[name_i Xi] [name_j Xj]] triple l k (d & _ & ->) _ IH];
    [done|].
  csimpl. by rewrite IH.
Qed.

Lemma profiles_nonempty_distance table rate name_i Xi name_j Xj :
  (1 ≤ rate)%Z →
  profiles_nonempty table →
  (name_i, Xi) ∈ table → (name_j, Xj) ∈ table →
  ∃ d, _distance Xi Xj rate = inr d.
Proof.
  unfold profiles_nonempty. rewrite Forall_forall.
  intros Hrate Hne Hi Hj.
  pose proof (Hne _ Hi) as Hi'. pose proof (Hne _ Hj) as Hj'. simpl in *.
  destruct (_distance_inr Xi Xj rate) as (s & w & _ & _ & ->); [| |eauto].
  - intros H. apply Hi'. apply (strengths_nil_inv _ rate); [done|].
    apply (f_equal (λ X, X ∩ strengths Xi rate)) in H.
    revert H. generalize (strengths Xi rate) (strengths Xj rate).
    intros X Y H. set_solver.
  - intros H. apply Hi'. apply (weaknesses_nil_inv _ rate); [done|].
    revert H. generalize (weaknesses Xi rate) (weaknesses Xj rate).
    intros X Y H. set_solver.
Qed.

(** Under the caller's precondition no pair raises. *)
Lemma distance_gen_precondition table rate :
  (1 ≤ rate)%Z →
  profiles_nonempty table →
  Py.raised (distance_gen table rate) = None.
Proof.
  intros Hrate Hne. apply for_yield_total. apply Forall_forall.
  intros [[name_i Xi] [name_j Xj]]
         (i & j & _ & Hi & Hj)%elem_of_combinations2.
  apply list_elem_of_lookup_2 in Hi, Hj.
  destruct (profiles_nonempty_distance table rate name_i Xi name_j Xj)
    as [d ->]; simpl; eauto.
Qed.

(** The only exception the generator can end with. *)
Lemma distance_gen_raised table rate e :
  Py.raised (distance_gen table rate) = Some e →
  e = Py.ZeroDivisionError.
Proof.
  intros ([[name_i Xi] [name_j Xj]] & _ & Hf)%for_yield_raised.
  simpl in Hf.
  destruct (_distance Xi Xj rate) as [e'|d] eqn:E; simpl in Hf; [|done].
  injection Hf as <-. by apply _distance_inl in E as [-> _].
Qed.
End distance_gen_facts.

(** * The claims of the specification *)

(** ** Sample inputs are well formed *)

Lemma team_wf : wf_table team.
Proof. apply (bool_decide_unpack (NoDup team.*1)). by vm_compute. Qed.

Lemma team_well_typed : well_typed team.
Proof. apply (bool_decide_unpack (well_typed team)). by vm_compute. Qed.

Lemma team_profiles_nonempty : profiles_nonempty team.
Proof. repeat constructor; done. Qed.

(** ** Uniqueness engine, single member *)

(** C1 (the code departs from the claim). For a table with exactly one
    member the claim promises one yielded pair and no error. The code
    reduces the empty sequence of the other members' sets without an
    initial value: [specific_gen] raises [TypeError] before yielding
    anything. Evaluated here on the table [{"A": ["分析思考"]}], rate 1. *)
Theorem specific_gen_single_member_raises :
  specific_gen solo 1 = Py.Raise Py.TypeError
  ∧ Py.yielded (specific_gen solo 1) = []
  ∧ Py.raised (specific_gen solo 1) = Some Py.TypeError.
Proof. unfold solo. by rewrite specific_gen_single. Qed.

(** ** Histogram *)

(** C2, as stated, fails: a label outside the vocabulary becomes a 35th
    key of both mappings. *)
Lemma histogram_keys_unknown_label :
  ¬ (dom (histogram stranger 5).1 = Vocabulary
     ∧ dom (histogram stranger 5).2 = Vocabulary).
Proof.
  intros [Hs _].
  assert ("unknown" ∈ dom (histogram stranger 5).1) as Hin.
  { rewrite (proj1 (histogram_dom stranger 5)).
    apply elem_of_union_r. by apply elem_of_list_to_set, list_elem_of_singleton. }
  rewrite Hs in Hin. unfold Vocabulary in Hin.
  apply elem_of_list_to_set in Hin. revert Hin.
  apply (bool_decide_unpack ("unknown" ∉ Theme__args__)). by vm_compute.
Qed.

(** C2 (amended). For every table whose profile entries are all labels of
    the vocabulary, and every rate, the key sets of both mappings returned
    by [histogram] are exactly the 34-label vocabulary, whichever of its
    labels occur in the profiles. *)
Theorem histogram_keys_vocabulary (table : ThemesTable) (rate : Z) :
  well_typed table →
  dom (histogram table rate).1 = Vocabulary
  ∧ dom (histogram table rate).2 = Vocabulary
  ∧ size (dom (histogram table rate).1) = 34
  ∧ size (dom (histogram table rate).2) = 34.
Proof.
  intros Hwt. destruct (histogram_dom table rate) as [Hs Hw].
  pose proof (s_counted_well_typed table rate Hwt) as Hs'.
  pose proof (w_counted_well_typed table rate Hwt) as Hw'.
  assert (dom (histogram table rate).1 = Vocabulary) as Es
    by (rewrite Hs; revert Hs'; generalize Vocabulary; set_solver).
  assert (dom (histogram table rate).2 = Vocabulary) as Ew
    by (rewrite Hw; revert Hw'; generalize Vocabulary; set_solver).
  rewrite Es, Ew. split_and!; try done; apply Vocabulary_size.
Qed.

Lemma histogram_keys_vocabulary_witness :
  dom (histogram team 5).1 = Vocabulary
  ∧ dom (histogram team 5).2 = Vocabulary
  ∧ size (dom (histogram team 5).1) = 34
  ∧ size (dom (histogram team 5).2) = 34.
Proof. apply (histogram_keys_vocabulary team 5). exact team_well_typed. Defined.

(** C5 (the code departs from the claim). At rate 0 the claim gives both
    totals as the sum over the members of min(0, profile length), that is
    0. The strengths slice [xs[:0]] is empty and the strengths total is 0,
    but the weaknesses slice [xs[-0:]] is [xs[0:]], the whole profile: the
    weaknesses total is the number of all entries. Evaluated here on the
    table [{"A": ["分析思考"]}], rate 0. *)
Theorem histogram_rate_zero_weaknesses_total :
  conserved_total solo 0 = 0%Z
  ∧ Py.sum_values (histogram solo 0).1 = 0
  ∧ Py.sum_values (histogram solo 0).2 = 1.
Proof.
  destruct (histogram_sum solo 0) as [-> ->]. by vm_compute.
Qed.

(** At rate 0 the two totals do not both follow the formula. *)
Lemma histogram_total_rate_zero :
  ¬ (Z.of_nat (Py.sum_values (histogram solo 0).1) = conserved_total solo 0
     ∧ Z.of_nat (Py.sum_values (histogram solo 0).2) = conserved_total solo 0).
Proof.
  intros [_ Hw]. rewrite (proj2 (histogram_sum solo 0)) in Hw.
  vm_compute in Hw. discriminate Hw.
Qed.

(** X23. Where the code conserves the counts: for every table and every
    rate K ≥ 0 the counts of the strengths mapping sum to the sum over the
    members of min(K, profile length); for every rate K ≥ 1 the counts of
    the weaknesses mapping sum to the same number. *)
Theorem histogram_count_conservation (table : ThemesTable) (rate : Z) :
  (0 ≤ rate)%Z →
  Z.of_nat (Py.sum_values (histogram table rate).1)
    = conserved_total table rate
  ∧ ((1 ≤ rate)%Z →
     Z.of_nat (Py.sum_values (histogram table rate).2)
       = conserved_total table rate).
Proof.
  intros Hr. destruct (histogram_sum table rate) as [-> ->]. split.
  - by apply s_counted_length.
  - intros Hr'. by apply w_counted_length.
Qed.

Lemma histogram_count_conservation_witness :
  Z.of_nat (Py.sum_values (histogram team 5).1) = 12%Z
  ∧ Z.of_nat (Py.sum_values (histogram team 5).2) = 12%Z.
Proof.
  destruct (histogram_count_conservation team 5) as [Hs Hw]; [lia|].
  split; [exact Hs|apply Hw; lia].
Defined.

(** C10. With rate 0 the strengths mapping has all 34 keys at count 0,
    while the weaknesses mapping counts every occurrence of every theme of
    every whole profile: [xs[:0]] is empty but [xs[-0:]] is [xs[0:]], the
    whole list. *)
Theorem histogram_rate_zero_asymmetric (table : ThemesTable) :
  (∀ xs : list Theme, Py.slice_to xs 0 = [] ∧ Py.slice_from xs (- 0) = xs)
  ∧ (histogram table 0).1 = empty_hist
  ∧ dom (histogram table 0).1 = Vocabulary
  ∧ (∀ theme count,
       (histogram table 0).1 !! theme = Some count → count = 0)
  ∧ (histogram table 0).2
      = Py.dict_merge empty_hist (Py.Counter (concat (values table)))
  ∧ (∀ theme,
       default 0 ((histogram table 0).2 !! theme)
       = occurrences theme (concat (values table))).
Proof.
  assert ((histogram table 0).1 = empty_hist) as Hs.
  { rewrite histogram_unfold. cbn [fst].
    rewrite s_counted_zero, Counter_nil. unfold Py.dict_merge.
    apply (left_id_L ∅ (∪)). }
  split_and!.
  - intros xs. split; [apply slice_to_zero|apply slice_from_minus_zero].
  - exact Hs.
  - rewrite Hs. apply empty_hist_dom.
  - rewrite Hs. apply empty_hist_zero.
  - rewrite histogram_unfold. cbn [snd]. by rewrite w_counted_zero.
  - intros theme. rewrite (proj2 (histogram_count table 0 theme)).
    by rewrite w_counted_zero.
Qed.

(** ** Dissimilarity engine *)

(** C3, as stated, fails: one empty profile does not make the union empty.
    With rate 1, an empty profile and the profile ["着想"], both unions are
    the set of 着想 and the computation returns the distance 1. *)
Lemma distance_one_empty_profile_returns :
  ¬ ((1 = 0)%Z ∨ ([] : list Theme) = [] ∨ ["着想"] = [] →
     _distance [] ["着想"] 1 = inl Py.ZeroDivisionError).
Proof.
  intros H. specialize (H (or_intror (or_introl eq_refl))).
  vm_compute in H. discriminate H.
Qed.

(** C3 (amended). The distance computation fails exactly when the union of
    the two strength sets or of the two weakness sets is empty, and then
    with [ZeroDivisionError]; this is the case whenever the rate is 0 and
    whenever both compared profiles are empty, and for a rate of at least 1
    only when both compared profiles are empty. With a rate of at least 1
    and non-empty profiles no distance computation fails, neither for a
    pair nor anywhere in [distance_gen]. *)
Theorem distance_fails_iff_empty_union (Xi Xj : list Theme) (rate : Z) :
  (∀ e, _distance Xi Xj rate = inl e
        ↔ e = Py.ZeroDivisionError
          ∧ (strengths Xi rate ∪ strengths Xj rate = ∅
             ∨ weaknesses Xi rate ∪ weaknesses Xj rate = ∅))
  ∧ (rate = 0%Z → _distance Xi Xj rate = inl Py.ZeroDivisionError)
  ∧ (Xi = [] → Xj = [] → _distance Xi Xj rate = inl Py.ZeroDivisionError)
  ∧ ((1 ≤ rate)%Z → Xi ≠ [] → Xj ≠ [] →
     ∃ d, _distance Xi Xj rate = inr d)
  ∧ (∀ table : ThemesTable,
       (1 ≤ rate)%Z → profiles_nonempty table →
       Py.raised (distance_gen table rate) = None)
  ∧ ((1 ≤ rate)%Z →
     (_distance Xi Xj rate = inl Py.ZeroDivisionError ↔ Xi = [] ∧ Xj = [])).
Proof.
  split_and!.
  - intros e. apply _distance_inl.
  - intros ->. apply _distance_rate_zero.
  - intros -> ->. apply _distance_both_empty.
  - intros Hrate Hi Hj.
    apply (profiles_nonempty_distance [("i", Xi); ("j", Xj)] rate "i" Xi "j" Xj);
      [done| |by left|by right; left].
    by repeat constructor.
  - intros table. apply distance_gen_precondition.
  - intros Hrate. split.
    + intros Herr. apply _distance_inl in Herr as [_ [Hs|Hw]].
      * apply empty_union_L in Hs as [Hi Hj].
        split; by eapply strengths_nil_inv.
      * apply empty_union_L in Hw as [Hi Hj].
        split; by eapply weaknesses_nil_inv.
    + intros [-> ->]. apply _distance_both_empty.
Qed.

Lemma distance_fails_iff_empty_union_witness :
  (∃ d, _distance profile_a profile_b 2 = inr d)
  ∧ Py.raised (distance_gen team 2) = None.
Proof.
  destruct (distance_fails_iff_empty_union profile_a profile_b 2)
    as (_ & _ & _ & Hpair & Hgen & _).
  split.
  - apply Hpair; [lia|done|done].
  - apply Hgen; [lia|exact team_profiles_nonempty].
Defined.

(** One empty profile alone does not make the computation fail. *)
Example _distance_one_empty :
  ∃ d, _distance [] ["着想"] 1 = inr d ∧ (d == 1)%Q.
Proof. eexists. split; [by vm_compute|by vm_compute]. Qed.

(** A negative rate can empty the strength sets of non-empty profiles. *)
Example _distance_negative_rate :
  _distance ["着想"] ["内省"] (-1) = inl Py.ZeroDivisionError.
Proof. by vm_compute. Qed.

(** C6. When the strength and weakness sets of both profiles are non-empty
    the distance is defined, lies in [0, 1], and is the same number when
    the two profiles are swapped. *)
Theorem distance_bounds_and_symmetry (Xi Xj : list Theme) (rate : Z) :
  strengths Xi rate ≠ ∅ → weaknesses Xi rate ≠ ∅ →
  strengths Xj rate ≠ ∅ → weaknesses Xj rate ≠ ∅ →
  ∃ d, _distance Xi Xj rate = inr d
       ∧ (0 <= d <= 1)%Q
       ∧ _distance Xj Xi rate = inr d.
Proof.
  intros HSi HWi HSj HWj.
  destruct (_distance_inr Xi Xj rate) as (s & w & Hs & Hw & Hd).
  - revert HSi. generalize (strengths Xi rate) (strengths Xj rate).
    intros X Y HX. set_solver.
  - revert HWi. generalize (weaknesses Xi rate) (weaknesses Xj rate).
    intros X Y HX. set_solver.
  - exists (1 - (s + w) / 2)%Q. split; [exact Hd|]. split.
    + apply distance_formula_bounds; by eapply _jaccard_bounds.
    + by rewrite <- _distance_comm.
Qed.

Lemma profile_sets_nonempty :
  strengths profile_a 2 ≠ ∅ ∧ weaknesses profile_a 2 ≠ ∅
  ∧ strengths profile_b 2 ≠ ∅ ∧ weaknesses profile_b 2 ≠ ∅.
Proof. split_and!; by intros ?%set_empty_inv. Qed.

Lemma distance_bounds_and_symmetry_witness :
  ∃ d, _distance profile_a profile_b 2 = inr d
       ∧ (0 <= d <= 1)%Q
       ∧ _distance profile_b profile_a 2 = inr d.
Proof.
  apply (distance_bounds_and_symmetry profile_a profile_b 2);
    apply profile_sets_nonempty.
Defined.

(** C7. Two profiles with equal, non-empty strength sets and equal,
    non-empty weakness sets are at distance 0. *)
Theorem distance_identity (Xi Xj : list Theme) (rate : Z) :
  strengths Xi rate = strengths Xj rate →
  weaknesses Xi rate = weaknesses Xj rate →
  strengths Xi rate ≠ ∅ → weaknesses Xi rate ≠ ∅ →
  ∃ d, _distance Xi Xj rate = inr d ∧ (d == 0)%Q.
Proof.
  intros ES EW HS HW. rewrite _distance_unfold, <- ES, <- EW.
  destruct (_jaccard_same _ HS) as (s & -> & Hs).
  destruct (_jaccard_same _ HW) as (w & -> & Hw).
  simpl. eexists. split; [done|]. rewrite Hs, Hw. reflexivity.
Qed.

Lemma profile_sets_equal :
  strengths profile_a 2 = strengths profile_b 2
  ∧ weaknesses profile_a 2 = weaknesses profile_b 2.
Proof.
  unfold strengths, weaknesses, profile_a, profile_b, Py.set; simpl.
  split; set_solver.
Qed.

Lemma distance_identity_witness :
  ∃ d, _distance profile_a profile_b 2 = inr d ∧ (d == 0)%Q.
Proof.
  apply (distance_identity profile_a profile_b 2);
    first [apply profile_sets_equal | apply profile_sets_nonempty].
Defined.

(** C8, as stated, fails: on a table of two members with empty profiles
    the first pair raises [ZeroDivisionError], so no triple is yielded
    where the claim counts 2 * 1 / 2 = 1. *)
Lemma distance_gen_aborts_on_empty_profiles :
  distance_gen blanks 5 = Py.Raise Py.ZeroDivisionError
  ∧ length (Py.yielded (distance_gen blanks 5))
    ≠ length blanks * (length blanks - 1) / 2.
Proof. split; [by vm_compute|]. vm_compute. lia. Qed.

(** C8 (amended). For every table and rate on which no pairwise distance
    computation raises (in particular for K ≥ 1 and non-empty profiles),
    [distance_gen] yields exactly one triple per unordered pair of distinct
    members, n * (n - 1) / 2 triples for n members: each pair of positions
    i < j is emitted with its distance, every emitted triple comes from
    such a pair, no pair of names is emitted twice, and a pair is never
    emitted in the opposite order as well. *)
Theorem distance_gen_pairs_once (table : ThemesTable) (rate : Z) :
  wf_table table →
  Py.raised (distance_gen table rate) = None →
  let out := Py.yielded (distance_gen table rate) in
  length out = length table * (length table - 1) / 2
  ∧ (∀ i j name_i Xi name_j Xj,
       i < j →
       table !! i = Some (name_i, Xi) → table !! j = Some (name_j, Xj) →
       ∃ d, _distance Xi Xj rate = inr d ∧ (name_i, name_j, d) ∈ out)
  ∧ (∀ name_i name_j d,
       (name_i, name_j, d) ∈ out →
       ∃ i j Xi Xj,
         i < j
         ∧ table !! i = Some (name_i, Xi) ∧ table !! j = Some (name_j, Xj)
         ∧ _distance Xi Xj rate = inr d)
  ∧ NoDup out.*1
  ∧ (∀ name_i name_j d d',
       (name_i, name_j, d) ∈ out → (name_j, name_i, d') ∉ out).
Proof.
  intros Hwf Hr out.
  pose proof (distance_gen_exhausted table rate Hr) as Hall.
  pose proof (distance_gen_names table rate Hr) as Hnames.
  fold out in Hall, Hnames. split_and!.
  - rewrite <- (Forall2_length _ _ _ Hall). apply combinations2_length.
  - intros i j name_i Xi name_j Xj Hij Hi Hj.
    assert (((name_i, Xi), (name_j, Xj)) ∈ Py.combinations2 table) as Hin
      by (apply elem_of_combinations2; eauto).
    apply list_elem_of_lookup in Hin as [k Hk].
    destruct (Forall2_lookup_l _ _ _ _ _ Hall Hk) as (t & Ht & d & Hd & ->).
    exists d. split; [done|]. by eapply list_elem_of_lookup_2.
  - intros name_i name_j d [k Hk]%list_elem_of_lookup.
    destruct (Forall2_lookup_r _ _ _ _ _ Hall Hk)
      as ([[ni Xi] [nj Xj]] & Hp & d' & Hd & [= -> -> ->]).
    apply list_elem_of_lookup_2, elem_of_combinations2 in Hp
      as (i & j & Hij & Hi & Hj).
    exists i, j, Xi, Xj. done.
  - rewrite Hnames. by apply combinations2_NoDup.
  - intros name_i name_j d d' Hin Hin'.
    apply (list_elem_of_fmap_2 fst) in Hin, Hin'.
    rewrite Hnames in Hin, Hin'. simpl in Hin, Hin'.
    by eapply (combinations2_asym table.*1).
Qed.

Lemma team_distance_gen_exhausted : Py.raised (distance_gen team 2) = None.
Proof.
  apply distance_gen_precondition; [lia|exact team_profiles_nonempty].
Qed.

Lemma distance_gen_pairs_once_witness :
  length (Py.yielded (distance_gen team 2)) = 3
  ∧ NoDup (Py.yielded (distance_gen team 2)).*1.
Proof.
  destruct (distance_gen_pairs_once team 2 team_wf team_distance_gen_exhausted)
    as (Hlen & _ & _ & Hnodup & _).
  split; [exact Hlen|exact Hnodup].
Defined.

(** ** Uniqueness engine *)

(** C4. For a table of at least two members and a rate K ≥ 1,
    [specific_gen] ends without error and yields one pair per member, in
    table order; the set yielded for member i is S_i minus the union of
    the S_j of all other members j, where S_i is the set of the first
    min(K, len(profile_i)) themes of profile i. In particular it is a
    subset of S_i. *)
Theorem specific_gen_difference_of_others (table : ThemesTable) (rate : Z) :
  wf_table table →
  2 ≤ length table →
  (1 ≤ rate)%Z →
  let K := Z.to_nat rate in
  Py.raised (specific_gen table rate) = None
  ∧ length (Py.yielded (specific_gen table rate)) = length table
  ∧ ∀ i name_i Xi,
      table !! i = Some (name_i, Xi) →
      ∃ specific,
        Py.yielded (specific_gen table rate) !! i = Some (name_i, specific)
        ∧ specific = top_set K Xi ∖ ⋃ (top_set K <$> others i table)
        ∧ (∀ theme,
             theme ∈ specific
             ↔ theme ∈ top_set K Xi
               ∧ ∀ j name_j Xj,
                   j ≠ i → table !! j = Some (name_j, Xj) →
                   theme ∉ top_set K Xj)
        ∧ specific ⊆ top_set K Xi.
Proof.
  intros Hwf Hlen Hrate K.
  destruct (specific_gen_exhausted table rate Hwf Hlen) as [Hr Hy].
  split; [done|]. split; [by apply specific_gen_length|].
  intros i name_i Xi Hi. eexists. split; [by apply Hy|].
  assert ((λ Xj, strengths Xj rate) <$> others i table
          = top_set K <$> others i table) as ->.
  { apply list_fmap_ext. intros ???. apply strengths_top_set. lia. }
  rewrite strengths_top_set by lia. fold K.
  split; [done|]. split.
  - intros theme. rewrite elem_of_difference, elem_of_union_list. split.
    + intros [Hin Hnot]. split; [done|].
      intros j name_j Xj Hne Hj Hin'. apply Hnot.
      exists (top_set K Xj). split; [|done].
      apply list_elem_of_fmap_2. by eapply elem_of_others.
    + intros [Hin Hnot]. split; [done|].
      intros (X & (Xj & -> & Hmem)%list_elem_of_fmap & Hin').
      apply elem_of_others_inv in Hmem as (j & name_j & Hne & Hj).
      by eapply Hnot.
  - apply subseteq_difference_l. done.
Qed.

Lemma specific_gen_difference_of_others_witness :
  Py.raised (specific_gen team 2) = None
  ∧ length (Py.yielded (specific_gen team 2)) = 3.
Proof.
  destruct (specific_gen_difference_of_others team 2 team_wf)
    as (Hr & Hlen & _); [simpl; lia|lia|].
  split; [exact Hr|exact Hlen].
Defined.

(** C9. For a table of at least two members and a rate K ≥ 1, the sets
    yielded for two distinct members have no theme in common. *)
Theorem specific_gen_disjoint (table : ThemesTable) (rate : Z) :
  wf_table table →
  2 ≤ length table →
  (1 ≤ rate)%Z →
  ∀ i j name_i name_j specific_i specific_j,
    i ≠ j →
    Py.yielded (specific_gen table rate) !! i = Some (name_i, specific_i) →
    Py.yielded (specific_gen table rate) !! j = Some (name_j, specific_j) →
    name_i ≠ name_j ∧ specific_i ## specific_j.
Proof.
  intros Hwf Hlen Hrate i j name_i name_j specific_i specific_j Hne Hi Hj.
  destruct (specific_gen_exhausted table rate Hwf Hlen) as [Hr Hy].
  pose proof (for_yield_exhausted _ _ Hr) as Hall.
  destruct (Forall2_lookup_r _ _ _ _ _ Hall Hi) as ([ni Xi] & Hti & _).
  destruct (Forall2_lookup_r _ _ _ _ _ Hall Hj) as ([nj Xj] & Htj & _).
  unfold items in Hti, Htj.
  pose proof (Hy _ _ _ Hti) as Hi'. pose proof (Hy _ _ _ Htj) as Hj'.
  rewrite Hi in Hi'. rewrite Hj in Hj'.
  injection Hi' as -> ->. injection Hj' as -> ->. split.
  - intros ->. apply Hne.
    apply (NoDup_lookup table.*1 i j nj); [exact Hwf|..];
      rewrite list_lookup_fmap; [by rewrite Hti|by rewrite Htj].
  - intros theme [Hin Hnot]%elem_of_difference [Hin' _]%elem_of_difference.
    apply Hnot. apply elem_of_union_list.
    exists (strengths Xj rate). split; [|done].
    apply (list_elem_of_fmap_2 (λ X, strengths X rate)).
    by eapply elem_of_others.
Qed.

Lemma specific_gen_disjoint_witness :
  match Py.yielded (specific_gen team 2) !! 0,
        Py.yielded (specific_gen team 2) !! 1 with
  | Some (name_i, specific_i), Some (name_j, specific_j) =>
      name_i ≠ name_j ∧ specific_i ## specific_j
  | _, _ => False
  end.
Proof.
  destruct (Py.yielded (specific_gen team 2) !! 0) as [[name_i si]|] eqn:E0;
    [|by vm_compute in E0].
  destruct (Py.yielded (specific_gen team 2) !! 1) as [[name_j sj]|] eqn:E1;
    [|by vm_compute in E1].
  apply (specific_gen_disjoint team 2 team_wf) with (i := 0) (j := 1);
    [simpl; lia|lia|lia|exact E0|exact E1].
Defined.

(** * Further properties of the code *)

(** ** Occurrences and counters *)

Section occurrences_facts.
Implicit Types (x : string) (xs ys : list string).

Lemma occurrences_nil x : occurrences x [] = 0.
Proof. done. Qed.

Lemma occurrences_app x xs ys :
  occurrences x (xs ++ ys)%list = occurrences x xs + occurrences x ys.
Proof. unfold occurrences. by rewrite filter_app, length_app. Qed.

Lemma occurrences_perm x xs ys :
  xs ≡ₚ ys → occurrences x xs = occurrences x ys.
Proof. intros H. unfold occurrences. by rewrite H. Qed.

Lemma occurrences_zero x xs : occurrences x xs = 0 ↔ x ∉ xs.
Proof.
  unfold occurrences. induction xs as [|y xs IH]; simpl.
  - split; [intros _; apply not_elem_of_nil|done].
  - rewrite not_elem_of_cons, <- IH.
    destruct (decide (y = x)) as [->|Hne].
    + rewrite filter_cons_True by done. simpl. split; [done|by intros [? _]].
    + rewrite filter_cons_False by done. split; [by split|by intros [_ ?]].
Qed.

Lemma occurrences_NoDup x xs :
  NoDup xs → occurrences x xs = if decide (x ∈ xs) then 1 else 0.
Proof.
  induction 1 as [|y xs Hy Hxs IH].
  - rewrite decide_False by apply not_elem_of_nil. done.
  - unfold occurrences in *. destruct (decide (y = x)) as [->|Hne].
    + rewrite filter_cons_True by done. simpl. rewrite IH.
      rewrite (decide_False (P := x ∈ xs)) by done.
      rewrite decide_True by (by left). done.
    + rewrite filter_cons_False by done. rewrite IH.
      destruct (decide (x ∈ xs)) as [Hin|Hnin].
      * rewrite decide_True by (by right). done.
      * rewrite decide_False; [done|].
        intros [->|?]%elem_of_cons; done.
Qed.

(** The exact content of a counter. *)
Lemma Counter_lookup xs x :
  Py.Counter xs !! x
  = if decide (x ∈ xs) then Some (occurrences x xs) else None.
Proof.
  pose proof (Counter_count xs x) as Hc.
  pose proof (Counter_dom xs) as Hd.
  destruct (decide (x ∈ xs)) as [Hin|Hnin].
  - assert (x ∈ dom (Py.Counter xs)) as [n Hn]%elem_of_dom
      by (rewrite Hd; by apply elem_of_list_to_set).
    rewrite Hn in Hc |- *. simpl in Hc. by rewrite Hc.
  - apply not_elem_of_dom. rewrite Hd. by rewrite elem_of_list_to_set.
Qed.

Lemma Counter_perm xs ys : xs ≡ₚ ys → Py.Counter xs = Py.Counter ys.
Proof.
  intros H. apply map_eq. intros x. rewrite !Counter_lookup.
  rewrite (occurrences_perm x xs ys H).
  destruct (decide (x ∈ xs)) as [Hin|Hnin].
  - rewrite decide_True; [done|]. by rewrite <- H.
  - rewrite decide_False; [done|]. by rewrite <- H.
Qed.

Lemma empty_hist_lookup x :
  empty_hist !! x = if decide (x ∈ Vocabulary) then Some 0 else None.
Proof.
  destruct (decide (x ∈ Vocabulary)) as [Hin|Hnin].
  - rewrite <- empty_hist_dom in Hin. apply elem_of_dom in Hin as [v Hv].
    rewrite Hv. by rewrite (empty_hist_zero _ _ Hv).
  - apply not_elem_of_dom. by rewrite empty_hist_dom.
Qed.
End occurrences_facts.

Lemma concat_perm {A} (l k : list (list A)) : l ≡ₚ k → concat l ≡ₚ concat k.
Proof.
  induction 1 as [|x l k _ IH|x y l|l k m _ IH1 _ IH2]; simpl.
  - done.
  - by rewrite IH.
  - rewrite !(assoc (++)). by rewrite (comm (++) y x).
  - by rewrite IH1.
Qed.

Lemma occurrences_concat_NoDup (theme : string) (slices : list (list string)) :
  Forall NoDup slices →
  occurrences theme (concat slices) = members_with theme slices.
Proof.
  unfold members_with. induction 1 as [|xs slices Hxs _ IH]; [done|].
  simpl. rewrite occurrences_app, IH, (occurrences_NoDup _ _ Hxs).
  destruct (decide (theme ∈ xs)).
  - by rewrite filter_cons_True.
  - by rewrite filter_cons_False.
Qed.

(** ** Histogram: content, edge cases, composition *)

Section histogram_more.
Implicit Types (table : ThemesTable) (rate : Z) (theme : string).

Lemma dict_merge_empty_hist_lookup (xs : list string) theme :
  Py.dict_merge empty_hist (Py.Counter xs) !! theme
  = if decide (theme ∈ Vocabulary ∨ theme ∈ xs)
    then Some (occurrences theme xs) else None.
Proof.
  rewrite lookup_dict_merge, Counter_lookup, empty_hist_lookup.
  destruct (decide (theme ∈ xs)) as [Hin|Hnin].
  - rewrite decide_True by (by right). done.
  - destruct (decide (theme ∈ Vocabulary)) as [Hv|Hv].
    + rewrite decide_True by (by left).
      by rewrite (proj2 (occurrences_zero theme xs) Hnin).
    + rewrite decide_False; [done|]. by intros [?|?].
Qed.

Lemma s_counted_app table1 table2 rate :
  s_counted (table1 ++ table2)%list rate
  = (s_counted table1 rate ++ s_counted table2 rate)%list.
Proof. unfold s_counted, values. by rewrite !fmap_app, concat_app. Qed.

Lemma w_counted_app table1 table2 rate :
  w_counted (table1 ++ table2)%list rate
  = (w_counted table1 rate ++ w_counted table2 rate)%list.
Proof. unfold w_counted, values. by rewrite !fmap_app, concat_app. Qed.

Lemma s_counted_perm table1 table2 rate :
  table1 ≡ₚ table2 → s_counted table1 rate ≡ₚ s_counted table2 rate.
Proof. intros H. unfold s_counted, values. apply concat_perm. by rewrite H. Qed.

Lemma w_counted_perm table1 table2 rate :
  table1 ≡ₚ table2 → w_counted table1 rate ≡ₚ w_counted table2 rate.
Proof. intros H. unfold w_counted, values. apply concat_perm. by rewrite H. Qed.

Lemma slice_to_negative (xs : list string) rate :
  (rate < 0)%Z →
  Py.slice_to xs rate = take (length xs - Z.to_nat (- rate)) xs.
Proof.
  intros Hr. unfold Py.slice_to.
  destruct (0 <=? rate)%Z eqn:E; [apply Z.leb_le in E; lia|done].
Qed.

Lemma slice_from_minus_negative (xs : list string) rate :
  (rate < 0)%Z → Py.slice_from xs (- rate) = drop (Z.to_nat (- rate)) xs.
Proof.
  intros Hr. unfold Py.slice_from.
  destruct (0 <=? - rate)%Z eqn:E; [done|apply Z.leb_gt in E; lia].
Qed.

Lemma slices_whole (xs : list string) rate :
  (1 ≤ rate)%Z → (Z.of_nat (length xs) ≤ rate)%Z →
  Py.slice_to xs rate = xs ∧ Py.slice_from xs (- rate) = xs.
Proof.
  intros Hr Hlen. split.
  - rewrite slice_to_nonneg by lia. apply take_ge. lia.
  - rewrite slice_from_minus_pos by lia.
    replace (length xs - Z.to_nat rate) with 0 by lia. done.
Qed.
End histogram_more.

(** X1. The exact content of both mappings: a theme is a key exactly when
    it is a vocabulary label or occurs in a counted slice, and its value is
    its number of occurrences in the counted slices. *)
Theorem histogram_lookup (table : ThemesTable) (rate : Z) (theme : Theme) :
  (histogram table rate).1 !! theme
  = (if decide (theme ∈ Vocabulary ∨ theme ∈ s_counted table rate)
     then Some (occurrences theme (s_counted table rate)) else None)
  ∧ (histogram table rate).2 !! theme
    = (if decide (theme ∈ Vocabulary ∨ theme ∈ w_counted table rate)
       then Some (occurrences theme (w_counted table rate)) else None).
Proof.
  rewrite histogram_unfold. cbn [fst snd].
  by rewrite !dict_merge_empty_hist_lookup.
Qed.

(** X2. A table without members, or whose profiles are all empty, gives the
    zero-filled dictionary twice, whatever the rate: all 34 labels at 0. *)
Theorem histogram_blank_profiles (table : ThemesTable) (rate : Z) :
  Forall (λ '(_, xs), xs = []) table →
  histogram table rate = (empty_hist, empty_hist)
  ∧ dom empty_hist = Vocabulary
  ∧ ∀ theme count, empty_hist !! theme = Some count → count = 0.
Proof.
  intros Hblank. split; [|split; [apply empty_hist_dom|apply empty_hist_zero]].
  assert (s_counted table rate = [] ∧ w_counted table rate = []) as [Hs Hw].
  { unfold s_counted, w_counted, values.
    induction Hblank as [|[name xs] table -> _ [IHs IHw]]; [done|].
    rewrite !fmap_cons. cbn [snd concat]. rewrite IHs, IHw. split.
    - unfold Py.slice_to. destruct (0 <=? rate)%Z; by rewrite take_nil.
    - unfold Py.slice_from. destruct (0 <=? - rate)%Z; by rewrite drop_nil. }
  rewrite histogram_unfold, Hs, Hw, Counter_nil. unfold Py.dict_merge.
  by rewrite (left_id_L ∅ (∪)).
Qed.

Lemma histogram_blank_profiles_witness :
  histogram blanks 5 = (empty_hist, empty_hist)
  ∧ dom empty_hist = Vocabulary
  ∧ ∀ theme count, empty_hist !! theme = Some count → count = 0.
Proof. apply (histogram_blank_profiles blanks 5). by repeat constructor. Defined.

(** X3. A negative rate raises nothing: with [n = -rate] the strengths
    mapping counts each profile without its last [n] entries and the
    weaknesses mapping each profile without its first [n] entries, so both
    totals are the sum over the members of max(len(profile) - n, 0). *)
Theorem histogram_negative_rate (table : ThemesTable) (rate : Z) :
  (rate < 0)%Z →
  let n := Z.to_nat (- rate) in
  (∀ theme,
     default 0 ((histogram table rate).1 !! theme)
     = occurrences theme
         (concat ((λ xs, take (length xs - n) xs) <$> values table))
     ∧ default 0 ((histogram table rate).2 !! theme)
       = occurrences theme (concat (drop n <$> values table)))
  ∧ Py.sum_values (histogram table rate).1 = shortened_total table n
  ∧ Py.sum_values (histogram table rate).2 = shortened_total table n.
Proof.
  intros Hr n.
  assert (s_counted table rate
          = concat ((λ xs, take (length xs - n) xs) <$> values table)) as Hs.
  { unfold s_counted. f_equal. apply list_fmap_ext. intros ???.
    by apply slice_to_negative. }
  assert (w_counted table rate = concat (drop n <$> values table)) as Hw.
  { unfold w_counted. f_equal. apply list_fmap_ext. intros ???.
    by apply slice_from_minus_negative. }
  split; [|split].
  - intros theme. destruct (histogram_count table rate theme) as [-> ->].
    by rewrite Hs, Hw.
  - rewrite (proj1 (histogram_sum table rate)), Hs. unfold shortened_total.
    clear. generalize (values table). intros l.
    induction l as [|xs l IH]; [done|]. csimpl.
    rewrite length_app, length_take, IH. lia.
  - rewrite (proj2 (histogram_sum table rate)), Hw. unfold shortened_total.
    clear. generalize (values table). intros l.
    induction l as [|xs l IH]; [done|]. csimpl.
    by rewrite length_app, length_drop, IH.
Qed.

Lemma histogram_negative_rate_witness :
  Py.sum_values (histogram team (-2)).1 = 7
  ∧ Py.sum_values (histogram team (-2)).2 = 7.
Proof.
  destruct (histogram_negative_rate team (-2)) as (_ & Hs & Hw); [lia|].
  split; [exact Hs|exact Hw].
Defined.

(** X4. When the rate is at least 1 and no profile is longer than the rate,
    both slices are the whole profile and the two mappings are equal. *)
Theorem histogram_rate_covers_profiles (table : ThemesTable) (rate : Z) :
  (1 ≤ rate)%Z →
  Forall (λ '(_, xs), (Z.of_nat (length xs) ≤ rate)%Z) table →
  (histogram table rate).1 = (histogram table rate).2
  ∧ (histogram table rate).1
    = Py.dict_merge empty_hist (Py.Counter (concat (values table))).
Proof.
  intros Hr Hshort.
  assert (s_counted table rate = concat (values table)
          ∧ w_counted table rate = concat (values table)) as [Hs Hw].
  { unfold s_counted, w_counted, values.
    induction Hshort as [|[name xs] table Hxs _ [IHs IHw]]; [done|].
    rewrite !fmap_cons. cbn [snd concat]. rewrite IHs, IHw.
    destruct (slices_whole xs rate Hr Hxs) as [-> ->]. done. }
  rewrite histogram_unfold. cbn [fst snd]. by rewrite Hs, Hw.
Qed.

Lemma histogram_rate_covers_profiles_witness :
  (histogram team 6).1 = (histogram team 6).2
  ∧ (histogram team 6).1
    = Py.dict_merge empty_hist (Py.Counter (concat (values team))).
Proof.
  apply (histogram_rate_covers_profiles team 6); [lia|].
  repeat constructor; simpl; lia.
Defined.

(** X5. The order of the members does not matter: two tables that hold
    the same entries in a different order give equal mappings. *)
Theorem histogram_permutation_invariant
    (table1 table2 : ThemesTable) (rate : Z) :
  table1 ≡ₚ table2 → histogram table1 rate = histogram table2 rate.
Proof.
  intros H. rewrite !histogram_unfold.
  rewrite (Counter_perm _ _ (s_counted_perm _ _ rate H)).
  by rewrite (Counter_perm _ _ (w_counted_perm _ _ rate H)).
Qed.

Lemma histogram_permutation_invariant_witness :
  histogram team 5 = histogram reversed_team 5.
Proof.
  apply (histogram_permutation_invariant team reversed_team 5).
  unfold reversed_team. by rewrite reverse_Permutation.
Defined.

(** X6. Counts add up over teams: for two tables with no member name in
    common, every count of the histogram of the table that holds the
    entries of the first followed by those of the second is the sum of the
    counts of the two histograms. *)
Theorem histogram_app_additive (table1 table2 : ThemesTable) (rate : Z)
    (theme : Theme) :
  wf_table (table1 ++ table2)%list →
  default 0 ((histogram (table1 ++ table2)%list rate).1 !! theme)
  = default 0 ((histogram table1 rate).1 !! theme)
    + default 0 ((histogram table2 rate).1 !! theme)
  ∧ default 0 ((histogram (table1 ++ table2)%list rate).2 !! theme)
    = default 0 ((histogram table1 rate).2 !! theme)
      + default 0 ((histogram table2 rate).2 !! theme).
Proof.
  intros _.
  destruct (histogram_count (table1 ++ table2)%list rate theme) as [-> ->].
  destruct (histogram_count table1 rate theme) as [-> ->].
  destruct (histogram_count table2 rate theme) as [-> ->].
  by rewrite s_counted_app, w_counted_app, !occurrences_app.
Qed.

Lemma team_newcomers_wf : wf_table (team ++ newcomers)%list.
Proof.
  apply (bool_decide_unpack (NoDup (team ++ newcomers)%list.*1)).
  by vm_compute.
Qed.

Lemma histogram_app_additive_witness :
  default 0 ((histogram (team ++ newcomers)%list 2).1 !! "着想")
  = default 0 ((histogram team 2).1 !! "着想")
    + default 0 ((histogram newcomers 2).1 !! "着想")
  ∧ default 0 ((histogram (team ++ newcomers)%list 2).2 !! "着想")
    = default 0 ((histogram team 2).2 !! "着想")
      + default 0 ((histogram newcomers 2).2 !! "着想").
Proof.
  apply (histogram_app_additive team newcomers 2 "着想").
  exact team_newcomers_wf.
Defined.

(** X7. When no profile repeats a theme and the rate is at least 1, the
    strengths count of a theme is the number of members that have it among
    their first K themes, the weaknesses count the number that have it
    among their last K; neither exceeds the number of members. *)
Theorem histogram_counts_members (table : ThemesTable) (rate : Z)
    (theme : Theme) :
  (1 ≤ rate)%Z →
  Forall (λ '(_, xs), NoDup xs) table →
  let K := Z.to_nat rate in
  default 0 ((histogram table rate).1 !! theme)
    = members_with theme (first_K K <$> values table)
  ∧ default 0 ((histogram table rate).2 !! theme)
    = members_with theme (last_K K <$> values table)
  ∧ default 0 ((histogram table rate).1 !! theme) ≤ length table
  ∧ default 0 ((histogram table rate).2 !! theme) ≤ length table.
Proof.
  intros Hr Hnd K.
  destruct (histogram_count table rate theme) as [-> ->].
  assert (s_counted table rate = concat (first_K K <$> values table)) as ->.
  { unfold s_counted. f_equal. apply list_fmap_ext. intros ???.
    apply slice_to_first_K. lia. }
  assert (w_counted table rate = concat (last_K K <$> values table)) as ->.
  { unfold w_counted. f_equal. apply list_fmap_ext. intros ???.
    by apply slice_from_last_K. }
  assert (Forall NoDup (first_K K <$> values table)) as Hf.
  { unfold values. rewrite <- list_fmap_compose. apply Forall_fmap.
    eapply Forall_impl; [exact Hnd|]. intros [name xs] Hxs. simpl.
    unfold first_K. eapply sublist_NoDup; [exact Hxs|apply sublist_take]. }
  assert (Forall NoDup (last_K K <$> values table)) as Hl.
  { unfold values. rewrite <- list_fmap_compose. apply Forall_fmap.
    eapply Forall_impl; [exact Hnd|]. intros [name xs] Hxs. simpl.
    unfold last_K. eapply sublist_NoDup; [exact Hxs|apply sublist_drop]. }
  rewrite !occurrences_concat_NoDup by done.
  assert (∀ slices : list (list string),
            members_with theme slices ≤ length slices) as Hle.
  { intros slices. unfold members_with. apply length_filter. }
  split_and!; try done.
  - etrans; [apply Hle|]. unfold values. by rewrite !length_fmap.
  - etrans; [apply Hle|]. unfold values. by rewrite !length_fmap.
Qed.

Lemma histogram_counts_members_witness :
  default 0 ((histogram team 2).1 !! "着想") = 2
  ∧ default 0 ((histogram team 2).2 !! "着想") = 0.
Proof.
  destruct (histogram_counts_members team 2 "着想") as (Hs & Hw & _ & _);
    [lia| |].
  - repeat constructor; simpl;
      apply (bool_decide_unpack _); by vm_compute.
  - split; [exact Hs|exact Hw].
Defined.

(** ** Distance: extreme values *)

Section fractions.
Local Open Scope Q_scope.

Lemma inject_nat_nonzero (b : nat) :
  b ≠ 0%nat → ¬ inject_Z (Z.of_nat b) == 0.
Proof.
  intros Hb. change 0 with (inject_Z 0). rewrite inject_Z_injective. lia.
Qed.

Lemma fraction_one_iff (a b : nat) :
  b ≠ 0%nat →
  inject_Z (Z.of_nat a) / inject_Z (Z.of_nat b) == 1 ↔ a = b.
Proof.
  intros Hb. split.
  - intros H.
    assert (inject_Z (Z.of_nat a) == inject_Z (Z.of_nat b)) as Heq.
    { rewrite <- (Qmult_div_r (inject_Z (Z.of_nat a)) (inject_Z (Z.of_nat b)))
        by (by apply inject_nat_nonzero).
      rewrite H. apply Qmult_1_r. }
    pose proof (proj1 (inject_Z_injective _ _) Heq). lia.
  - intros ->. by apply fraction_same.
Qed.

Lemma fraction_zero_iff (a b : nat) :
  b ≠ 0%nat →
  inject_Z (Z.of_nat a) / inject_Z (Z.of_nat b) == 0 ↔ a = 0%nat.
Proof.
  intros Hb. split.
  - intros H.
    assert (inject_Z (Z.of_nat a) == inject_Z 0) as Heq.
    { rewrite <- (Qmult_div_r (inject_Z (Z.of_nat a)) (inject_Z (Z.of_nat b)))
        by (by apply inject_nat_nonzero).
      rewrite H. apply Qmult_0_r. }
    pose proof (proj1 (inject_Z_injective _ _) Heq). lia.
  - intros ->. apply fraction_zero.
Qed.

(** The distance formula at its two ends and at its middle. *)
Lemma distance_formula_zero (s w : Q) :
  0 <= s <= 1 → 0 <= w <= 1 →
  1 - (s + w) / 2 == 0 ↔ s == 1 ∧ w == 1.
Proof.
  intros [??] [??]. unfold Qdiv. change (/ 2) with (1 # 2). split.
  - intros Hd. split; lra.
  - intros [-> ->]. lra.
Qed.

Lemma distance_formula_one (s w : Q) :
  0 <= s <= 1 → 0 <= w <= 1 →
  1 - (s + w) / 2 == 1 ↔ s == 0 ∧ w == 0.
Proof.
  intros [??] [??]. unfold Qdiv. change (/ 2) with (1 # 2). split.
  - intros Hd. split; lra.
  - intros [-> ->]. lra.
Qed.

Lemma distance_formula_half (s w : Q) :
  0 <= s <= 1 → 0 <= w <= 1 →
  (s == 0 → (1 # 2) <= 1 - (s + w) / 2)
  ∧ (s == 1 → 1 - (s + w) / 2 <= (1 # 2)).
Proof.
  intros [??] [??]. unfold Qdiv. change (/ 2) with (1 # 2).
  split; intros Hs; lra.
Qed.
End fractions.

Section jaccard_more.
Implicit Types (Xi Xj : gset string).

Lemma _jaccard_inr_inv Xi Xj q :
  _jaccard Xi Xj = inr q →
  Xi ∪ Xj ≠ ∅
  ∧ q = (inject_Z (Z.of_nat (size (Xi ∩ Xj)))
         / inject_Z (Z.of_nat (size (Xi ∪ Xj))))%Q.
Proof.
  intros H. assert (Xi ∪ Xj ≠ ∅) as Hne.
  { intros He.
    by rewrite (proj2 (_jaccard_inl Xi Xj _) (conj eq_refl He)) in H. }
  split; [done|]. rewrite (_jaccard_inr _ _ Hne) in H. by injection H.
Qed.

Lemma _jaccard_one_iff Xi Xj q :
  _jaccard Xi Xj = inr q → (q == 1)%Q ↔ Xi = Xj.
Proof.
  intros Hq. apply _jaccard_inr_inv in Hq as [Hne ->].
  rewrite fraction_one_iff by (by rewrite size_empty_iff_L). split.
  - intros Hsize.
    assert (Xi ∩ Xj = Xi ∪ Xj) as Heq.
    { apply set_subseteq_size_eq; [set_solver|lia]. }
    set_solver.
  - intros ->. f_equal. set_solver.
Qed.

Lemma _jaccard_zero_iff Xi Xj q :
  _jaccard Xi Xj = inr q → (q == 0)%Q ↔ Xi ## Xj.
Proof.
  intros Hq. apply _jaccard_inr_inv in Hq as [Hne ->].
  rewrite fraction_zero_iff by (by rewrite size_empty_iff_L).
  rewrite size_empty_iff_L. set_solver.
Qed.
End jaccard_more.

Lemma _distance_inr_inv (Xi Xj : list string) (rate : Z) (d : Q) :
  _distance Xi Xj rate = inr d →
  ∃ s w,
    _jaccard (strengths Xi rate) (strengths Xj rate) = inr s
    ∧ _jaccard (weaknesses Xi rate) (weaknesses Xj rate) = inr w
    ∧ d = (1 - (s + w) / 2)%Q.
Proof.
  rewrite _distance_unfold.
  destruct (_jaccard (strengths Xi rate) (strengths Xj rate)) as [|s];
    [done|].
  destruct (_jaccard (weaknesses Xi rate) (weaknesses Xj rate)) as [|w];
    [done|].
  simpl. intros [= <-]. eauto.
Qed.

Lemma _distance_inr_bounds (Xi Xj : list string) (rate : Z) (d : Q) :
  _distance Xi Xj rate = inr d → (0 <= d <= 1)%Q.
Proof.
  intros Hd. apply _distance_inr_inv in Hd as (s & w & Hs & Hw & ->).
  apply distance_formula_bounds; by eapply _jaccard_bounds.
Qed.

(** X8. A defined distance is 0 exactly when the two profiles have the
    same strength set and the same weakness set. *)
Theorem distance_zero_iff (Xi Xj : list Theme) (rate : Z) (d : Q) :
  _distance Xi Xj rate = inr d →
  (d == 0)%Q
  ↔ strengths Xi rate = strengths Xj rate
    ∧ weaknesses Xi rate = weaknesses Xj rate.
Proof.
  intros Hd. apply _distance_inr_inv in Hd as (s & w & Hs & Hw & ->).
  rewrite distance_formula_zero by (by eapply _jaccard_bounds).
  by rewrite (_jaccard_one_iff _ _ _ Hs), (_jaccard_one_iff _ _ _ Hw).
Qed.

Lemma distance_zero_iff_witness :
  ∃ d, _distance profile_a profile_c 2 = inr d
       ∧ ((d == 0)%Q
          ↔ strengths profile_a 2 = strengths profile_c 2
            ∧ weaknesses profile_a 2 = weaknesses profile_c 2).
Proof.
  eexists. split; [vm_compute; reflexivity|].
  apply (distance_zero_iff profile_a profile_c 2). vm_compute. reflexivity.
Defined.

(** X9. A defined distance is 1 exactly when the two strength sets are
    disjoint and the two weakness sets are disjoint. *)
Theorem distance_one_iff (Xi Xj : list Theme) (rate : Z) (d : Q) :
  _distance Xi Xj rate = inr d →
  (d == 1)%Q
  ↔ strengths Xi rate ## strengths Xj rate
    ∧ weaknesses Xi rate ## weaknesses Xj rate.
Proof.
  intros Hd. apply _distance_inr_inv in Hd as (s & w & Hs & Hw & ->).
  rewrite distance_formula_one by (by eapply _jaccard_bounds).
  by rewrite (_jaccard_zero_iff _ _ _ Hs), (_jaccard_zero_iff _ _ _ Hw).
Qed.

Lemma distance_one_iff_witness :
  ∃ d, _distance profile_a profile_c 2 = inr d
       ∧ ((d == 1)%Q
          ↔ strengths profile_a 2 ## strengths profile_c 2
            ∧ weaknesses profile_a 2 ## weaknesses profile_c 2).
Proof.
  eexists. split; [vm_compute; reflexivity|].
  apply (distance_one_iff profile_a profile_c 2). vm_compute. reflexivity.
Defined.

(** X10. Each end of the profile carries half of the distance: disjoint
    strength sets, or disjoint weakness sets, put a defined distance at 1/2
    or above; equal strength sets, or equal weakness sets, at 1/2 or
    below. *)
Theorem distance_half (Xi Xj : list Theme) (rate : Z) (d : Q) :
  _distance Xi Xj rate = inr d →
  (strengths Xi rate ## strengths Xj rate → (1 # 2 <= d)%Q)
  ∧ (weaknesses Xi rate ## weaknesses Xj rate → (1 # 2 <= d)%Q)
  ∧ (strengths Xi rate = strengths Xj rate → (d <= 1 # 2)%Q)
  ∧ (weaknesses Xi rate = weaknesses Xj rate → (d <= 1 # 2)%Q).
Proof.
  intros Hd. apply _distance_inr_inv in Hd as (s & w & Hs & Hw & ->).
  pose proof (_jaccard_bounds _ _ _ Hs) as Bs.
  pose proof (_jaccard_bounds _ _ _ Hw) as Bw.
  destruct (distance_formula_half s w Bs Bw) as [Hs0 Hs1].
  destruct (distance_formula_half w s Bw Bs) as [Hw0 Hw1].
  split_and!.
  - intros H%(_jaccard_zero_iff _ _ _ Hs). by apply Hs0.
  - intros H%(_jaccard_zero_iff _ _ _ Hw).
    rewrite (Qplus_comm s w). by apply Hw0.
  - intros H%(_jaccard_one_iff _ _ _ Hs). by apply Hs1.
  - intros H%(_jaccard_one_iff _ _ _ Hw).
    rewrite (Qplus_comm s w). by apply Hw1.
Qed.

Lemma distance_half_witness :
  ∃ d, _distance profile_a profile_c 2 = inr d
       ∧ (strengths profile_a 2 ## strengths profile_c 2 → (1 # 2 <= d)%Q)
       ∧ (weaknesses profile_a 2 = weaknesses profile_c 2 → (d <= 1 # 2)%Q).
Proof.
  eexists. split; [vm_compute; reflexivity|].
  destruct (distance_half profile_a profile_c 2 _ eq_refl)
    as (Hs & _ & _ & Hw).
  split; [exact Hs|exact Hw].
Defined.

(** ** Generators: where they stop *)

Lemma for_yield_split {A B} (f : A → Py.result B) (l : list A) :
  ∃ emitted pending,
    l = (emitted ++ pending)%list
    ∧ Forall2 (λ x b, f x = inr b) emitted (Py.yielded (Py.for_yield f l))
    ∧ match Py.raised (Py.for_yield f l) with
      | None => pending = []
      | Some e => ∃ x rest, pending = x :: rest ∧ f x = inl e
      end.
Proof.
  induction l as [|x l (emitted & pending & Hl & Hall & Hend)]; simpl.
  - exists [], []. by repeat split.
  - destruct (f x) as [e|b] eqn:E; simpl.
    + exists [], (x :: l). repeat split; [constructor|]. eauto.
    + exists (x :: emitted), pending. rewrite Hl at 1.
      repeat split; [by constructor|done].
Qed.

(** The pairs handled before the generator ends, and the pair it fails on. *)
Lemma distance_gen_split (table : ThemesTable) (rate : Z) :
  ∃ emitted pending,
    Py.combinations2 table = (emitted ++ pending)%list
    ∧ Forall2
        (λ '((name_i, Xi), (name_j, Xj)) triple,
           ∃ d, _distance Xi Xj rate = inr d ∧ triple = (name_i, name_j, d))
        emitted (Py.yielded (distance_gen table rate))
    ∧ match Py.raised (distance_gen table rate) with
      | None => pending = []
      | Some e =>
          e = Py.ZeroDivisionError
          ∧ ∃ name_i Xi name_j Xj rest,
              pending = ((name_i, Xi), (name_j, Xj)) :: rest
              ∧ _distance Xi Xj rate = inl Py.ZeroDivisionError
      end.
Proof.
  unfold distance_gen, items.
  destruct (for_yield_split
              (λ '((name_i, Xi), (name_j, Xj)),
                 let! d := _distance Xi Xj rate in Py.ret (name_i, name_j, d))
              (Py.combinations2 table))
    as (emitted & pending & Hl & Hall & Hend).
  exists emitted, pending. split; [done|]. split.
  - eapply Forall2_impl; [exact Hall|].
    intros [[name_i Xi] [name_j Xj]] triple. simpl.
    destruct (_distance Xi Xj rate) as [e|d]; simpl; [done|].
    intros [= <-]. eauto.
  - destruct (Py.raised _) as [e|]; [|done].
    destruct Hend as ([[name_i Xi] [name_j Xj]] & rest & -> & Hf).
    simpl in Hf.
    destruct (_distance Xi Xj rate) as [e'|d] eqn:E; simpl in Hf; [|done].
    injection Hf as <-. apply _distance_inl in E as Hzero.
    destruct Hzero as [-> _]. split; [done|].
    by exists name_i, Xi, name_j, Xj, rest.
Qed.

(** X11. The pairwise generator stops at the first pair whose distance
    fails: it yields the triples of the pairs before it, in the order of
    the 2-combinations, each with the distance of its two profiles, and
    then ends with [ZeroDivisionError]; when no pair fails it yields a
    triple for every pair. It never ends with another exception. *)
Theorem distance_gen_stops_at_first_failure (table : ThemesTable) (rate : Z) :
  ∃ emitted pending,
    Py.combinations2 table = (emitted ++ pending)%list
    ∧ Forall2
        (λ '((name_i, Xi), (name_j, Xj)) triple,
           ∃ d, _distance Xi Xj rate = inr d ∧ triple = (name_i, name_j, d))
        emitted (Py.yielded (distance_gen table rate))
    ∧ match Py.raised (distance_gen table rate) with
      | None => pending = []
      | Some e =>
          e = Py.ZeroDivisionError
          ∧ ∃ name_i Xi name_j Xj rest,
              pending = ((name_i, Xi), (name_j, Xj)) :: rest
              ∧ _distance Xi Xj rate = inl Py.ZeroDivisionError
      end.
Proof. apply distance_gen_split. Qed.

(** X12. Whatever the generator yields is sound, also when it later
    raises: a yielded triple names two different members of the table,
    carries the distance of their profiles, and that distance lies in
    [0, 1]. *)
Theorem distance_gen_yields_sound (table : ThemesTable) (rate : Z) :
  wf_table table →
  ∀ name_i name_j d,
    (name_i, name_j, d) ∈ Py.yielded (distance_gen table rate) →
    name_i ≠ name_j
    ∧ (0 <= d <= 1)%Q
    ∧ ∃ Xi Xj,
        (name_i, Xi) ∈ table ∧ (name_j, Xj) ∈ table
        ∧ _distance Xi Xj rate = inr d.
Proof.
  intros Hwf name_i name_j d Hin.
  destruct (distance_gen_split table rate)
    as (emitted & pending & Hl & Hall & _).
  apply list_elem_of_lookup in Hin as [k Hk].
  destruct (Forall2_lookup_r _ _ _ _ _ Hall Hk)
    as ([[ni Xi] [nj Xj]] & Hp & d' & Hd & [= <- <- <-]).
  assert (((name_i, Xi), (name_j, Xj)) ∈ Py.combinations2 table) as Hc.
  { rewrite Hl. apply elem_of_app. left. by eapply list_elem_of_lookup_2. }
  apply elem_of_combinations2 in Hc as (i & j & Hij & Hi & Hj).
  split_and!.
  - intros ->. assert (i = j); [|lia].
    apply (NoDup_lookup table.*1 i j name_j); [exact Hwf|..];
      rewrite list_lookup_fmap; [by rewrite Hi|by rewrite Hj].
  - by eapply _distance_inr_bounds.
  - by eapply _distance_inr_bounds.
  - exists Xi, Xj. split_and!; [by eapply list_elem_of_lookup_2..|done].
Qed.

Lemma mixed_wf : wf_table mixed.
Proof. apply (bool_decide_unpack (NoDup mixed.*1)). by vm_compute. Qed.

Lemma distance_gen_yields_sound_witness :
  Py.raised (distance_gen mixed 1) = Some Py.ZeroDivisionError
  ∧ Forall (λ '(name_i, name_j, d), name_i ≠ name_j ∧ (0 <= d <= 1)%Q)
      (Py.yielded (distance_gen mixed 1)).
Proof.
  split; [by vm_compute|]. rewrite Forall_forall. intros [[name_i name_j] d] Hin.
  destruct (distance_gen_yields_sound mixed 1 mixed_wf name_i name_j d Hin)
    as (Hne & Hd & _).
  split; [exact Hne|exact Hd].
Defined.

(** X13. A table with fewer than two members has no pair: the pairwise
    generator ends at once, yields nothing and raises nothing, whatever
    the rate and the profile. *)
Theorem distance_gen_no_pair (table : ThemesTable) (rate : Z) :
  length table ≤ 1 → distance_gen table rate = Py.Stop.
Proof.
  destruct table as [|[name X] [|? ?]]; simpl; [done|done|lia].
Qed.

Lemma distance_gen_no_pair_witness : distance_gen solo 0 = Py.Stop.
Proof. apply (distance_gen_no_pair solo 0). simpl. lia. Defined.

(** X14. With rate 0 and at least two members the pairwise generator
    raises [ZeroDivisionError] on its first pair and yields nothing. *)
Theorem distance_gen_rate_zero (table : ThemesTable) :
  2 ≤ length table →
  distance_gen table 0 = Py.Raise Py.ZeroDivisionError.
Proof.
  destruct table as [|[name_i Xi] [|[name_j Xj] rest]]; simpl; [lia|lia|].
  intros _. unfold distance_gen, items. cbn [Py.combinations2 fmap list_fmap app].
  apply for_yield_first_raises. by rewrite _distance_rate_zero.
Qed.

Lemma distance_gen_rate_zero_witness :
  distance_gen team 0 = Py.Raise Py.ZeroDivisionError.
Proof. apply (distance_gen_rate_zero team). simpl. lia. Defined.

(** ** Uniqueness engine: failure, shared and empty sets *)

Lemma filter_nil_iff_all_named (name : string) (table : ThemesTable) :
  filter (λ '(name_j, _), name_j ≠ name) table = []
  ↔ Forall (λ '(name_j, _), name_j = name) table.
Proof.
  induction table as [|[n X] table IH].
  - split; [constructor|done].
  - destruct (decide (n = name)) as [->|Hne].
    + rewrite filter_cons_False by (intros H; by apply H).
      rewrite IH. split; [by constructor|by inversion 1].
    + rewrite filter_cons_True by done. split; [done|by inversion 1].
Qed.

(** X15. The union over the other members fails exactly when there is no
    other member: the table is empty or every key is the skipped name, and
    the failure is a [TypeError]. Otherwise it is the union of the strength
    sets of all entries with another name; for a name that is no key of the
    table, that is every entry. *)
Theorem skipped_union_fails_iff_alone
    (name_i : string) (table : ThemesTable) (rate : Z) :
  (∀ e, _skipped_union name_i table rate = inl e
        ↔ e = Py.TypeError ∧ Forall (λ '(name_j, _), name_j = name_i) table)
  ∧ (∀ union, _skipped_union name_i table rate = inr union →
       ∀ theme,
         theme ∈ union
         ↔ ∃ name_j Xj,
             (name_j, Xj) ∈ table ∧ name_j ≠ name_i
             ∧ theme ∈ strengths Xj rate).
Proof.
  unfold _skipped_union, items.
  destruct (filter (λ '(name_j, _), name_j ≠ name_i) table)
    as [|[n X] kept] eqn:E.
  - split.
    + intros e. simpl. rewrite <- filter_nil_iff_all_named, E.
      split; [by intros [= <-]|by intros [-> _]].
    + by intros union.
  - split.
    + intros e. split; [done|]. intros [_ Hall].
      apply filter_nil_iff_all_named in Hall. congruence.
    + intros union. rewrite reduce_union by done. intros Hu theme.
      match type of Hu with
      | inr ?u = _ => assert (union = u) as -> by congruence
      end.
      clear Hu. rewrite elem_of_union_list. split.
      * intros (S & HS & Hin).
        apply list_elem_of_fmap in HS as ([name_j Xj] & -> & Hmem).
        rewrite <- E in Hmem. apply list_elem_of_filter in Hmem as [Hne Hmem].
        by exists name_j, Xj.
      * intros (name_j & Xj & Hmem & Hne & Hin).
        exists (strengths Xj rate). split; [|done].
        apply (list_elem_of_fmap_2
                 (λ '(_, Xj), Py.set (Py.slice_to Xj rate)) _ (name_j, Xj)).
        rewrite <- E. by apply list_elem_of_filter.
Qed.

Lemma yielded_names (table : ThemesTable) (rate : Z) :
  wf_table table → 2 ≤ length table →
  (Py.yielded (specific_gen table rate)).*1 = table.*1.
Proof.
  intros Hwf Hlen.
  destruct (specific_gen_exhausted table rate Hwf Hlen) as [Hr Hy].
  pose proof (specific_gen_length table rate Hr) as Hl.
  apply list_eq. intros i. rewrite !list_lookup_fmap.
  destruct (table !! i) as [[name_i Xi]|] eqn:Hi.
  - by rewrite (Hy _ _ _ Hi).
  - apply lookup_ge_None in Hi. rewrite <- Hl in Hi.
    apply lookup_ge_None in Hi. by rewrite Hi.
Qed.

(** X16. [specific_gen] raises exactly on the tables of one member, and
    then [TypeError] before anything is yielded; on the empty table and on
    tables of two members or more it ends without error after yielding one
    pair per member, named by the keys in table order. *)
Theorem specific_gen_raises_iff_single (table : ThemesTable) (rate : Z) :
  wf_table table →
  (Py.raised (specific_gen table rate) = Some Py.TypeError
   ↔ length table = 1)
  ∧ (length table = 1 → specific_gen table rate = Py.Raise Py.TypeError)
  ∧ (length table ≠ 1 →
     Py.raised (specific_gen table rate) = None
     ∧ (Py.yielded (specific_gen table rate)).*1 = table.*1).
Proof.
  intros Hwf. destruct table as [|[name X] [|entry rest]].
  - split_and!; [done|done|]. by intros _.
  - rewrite specific_gen_single. split_and!; [done|done|]. by intros [].
  - assert (2 ≤ length ((name, X) :: entry :: rest)) as Hlen by (simpl; lia).
    destruct (specific_gen_exhausted _ rate Hwf Hlen) as [Hr _].
    split_and!.
    + rewrite Hr. simpl. split; [done|lia].
    + simpl. lia.
    + intros _. split; [done|]. by apply yielded_names.
Qed.

Lemma specific_gen_raises_iff_single_witness :
  Py.raised (specific_gen team 5) = None
  ∧ (Py.yielded (specific_gen team 5)).*1 = ["Alice"; "Bob"; "Carol"].
Proof.
  destruct (specific_gen_raises_iff_single team 5 team_wf) as (_ & _ & H).
  apply H. simpl. lia.
Defined.

(** X17. Two members whose strength sets are the same set have nothing
    specific: the set yielded for each of them is empty. *)
Theorem specific_gen_shared_top_set (table : ThemesTable) (rate : Z)
    (i j : nat) (name_i name_j : string) (Xi Xj : list Theme) :
  wf_table table →
  i ≠ j →
  table !! i = Some (name_i, Xi) →
  table !! j = Some (name_j, Xj) →
  strengths Xi rate = strengths Xj rate →
  Py.yielded (specific_gen table rate) !! i = Some (name_i, ∅)
  ∧ Py.yielded (specific_gen table rate) !! j = Some (name_j, ∅).
Proof.
  intros Hwf Hne Hi Hj Heq.
  assert (2 ≤ length table) as Hlen.
  { apply lookup_lt_Some in Hi, Hj. lia. }
  destruct (specific_gen_exhausted table rate Hwf Hlen) as [_ Hy].
  rewrite (Hy _ _ _ Hi), (Hy _ _ _ Hj). split; do 2 f_equal.
  - apply set_eq. intros theme.
    rewrite elem_of_difference, elem_of_union_list. split; [|set_solver].
    intros [Hin Hnot]. exfalso. apply Hnot.
    exists (strengths Xj rate). split; [|by rewrite <- Heq].
    apply (list_elem_of_fmap_2 (λ X, strengths X rate)).
    by eapply elem_of_others.
  - apply set_eq. intros theme.
    rewrite elem_of_difference, elem_of_union_list. split; [|set_solver].
    intros [Hin Hnot]. exfalso. apply Hnot.
    exists (strengths Xi rate). split; [|by rewrite Heq].
    apply (list_elem_of_fmap_2 (λ X, strengths X rate)).
    by eapply (elem_of_others table j i).
Qed.

Lemma twins_wf : wf_table twins.
Proof. apply (bool_decide_unpack (NoDup twins.*1)). by vm_compute. Qed.

Lemma specific_gen_shared_top_set_witness :
  Py.yielded (specific_gen twins 2) !! 0 = Some ("A", ∅)
  ∧ Py.yielded (specific_gen twins 2) !! 1 = Some ("B", ∅).
Proof.
  apply (specific_gen_shared_top_set twins 2 0 1 "A" "B"
           ["着想"; "内省"; "信念"] ["内省"; "着想"; "自我"] twins_wf);
    [lia|reflexivity|reflexivity|].
  unfold strengths, Py.set. simpl. set_solver.
Defined.

(** X18. With rate 0 and at least two members every yielded set is empty:
    no theme is counted as a strength. *)
Theorem specific_gen_rate_zero (table : ThemesTable) :
  wf_table table →
  2 ≤ length table →
  Py.raised (specific_gen table 0) = None
  ∧ Py.yielded (specific_gen table 0) = (λ name, (name, ∅)) <$> table.*1.
Proof.
  intros Hwf Hlen.
  destruct (specific_gen_exhausted table 0 Hwf Hlen) as [Hr Hy].
  split; [done|].
  pose proof (specific_gen_length table 0 Hr) as Hl.
  apply list_eq. intros i. rewrite !list_lookup_fmap.
  destruct (table !! i) as [[name_i Xi]|] eqn:Hi.
  - rewrite (Hy _ _ _ Hi), strengths_rate_zero. simpl. do 2 f_equal.
    set_solver.
  - apply lookup_ge_None in Hi. rewrite <- Hl in Hi.
    by apply lookup_ge_None in Hi.
Qed.

Lemma specific_gen_rate_zero_witness :
  Py.yielded (specific_gen team 0)
  = [("Alice", ∅); ("Bob", ∅); ("Carol", ∅)].
Proof.
  destruct (specific_gen_rate_zero team team_wf) as [_ H]; [simpl; lia|].
  exact H.
Defined.

(** X19. For a table of exactly two members the generator yields the two
    set differences of their strength sets, and both are empty exactly
    when the two strength sets are equal. *)
Theorem specific_gen_two_members
    (name_a name_b : string) (Xa Xb : list Theme) (rate : Z) :
  name_a ≠ name_b →
  specific_gen [(name_a, Xa); (name_b, Xb)] rate
  = Py.Yield (name_a, strengths Xa rate ∖ strengths Xb rate)
      (Py.Yield (name_b, strengths Xb rate ∖ strengths Xa rate) Py.Stop)
  ∧ (strengths Xa rate ∖ strengths Xb rate = ∅
     ∧ strengths Xb rate ∖ strengths Xa rate = ∅
     ↔ strengths Xa rate = strengths Xb rate).
Proof.
  intros Hne. split.
  - unfold specific_gen, items, _skipped_union, items. simpl.
    rewrite (filter_cons_False _ (name_a, Xa)) by (intros H; by apply H).
    rewrite (filter_cons_True _ (name_b, Xb)) by (simpl; congruence).
    rewrite filter_nil. simpl.
    rewrite (filter_cons_True _ (name_a, Xa)) by done.
    rewrite (filter_cons_False _ (name_b, Xb)) by (intros H; by apply H).
    rewrite filter_nil. done.
  - generalize (strengths Xa rate) (strengths Xb rate). intros A B. split.
    + intros [HA HB]. apply set_eq. intros x. split; intros Hx.
      * destruct (decide (x ∈ B)) as [|Hn]; [done|].
        assert (x ∈ A ∖ B) as Hd by (by apply elem_of_difference).
        rewrite HA in Hd. by apply not_elem_of_empty in Hd.
      * destruct (decide (x ∈ A)) as [|Hn]; [done|].
        assert (x ∈ B ∖ A) as Hd by (by apply elem_of_difference).
        rewrite HB in Hd. by apply not_elem_of_empty in Hd.
    + intros ->. assert (B ∖ B = ∅) as -> by set_solver. done.
Qed.

Lemma specific_gen_two_members_witness :
  specific_gen duo 2
  = Py.Yield ("A", strengths ["着想"; "内省"; "信念"] 2
                   ∖ strengths ["内省"; "自我"; "着想"] 2)
      (Py.Yield ("B", strengths ["内省"; "自我"; "着想"] 2
                      ∖ strengths ["着想"; "内省"; "信念"] 2) Py.Stop).
Proof.
  apply (specific_gen_two_members "A" "B"
           ["着想"; "内省"; "信念"] ["内省"; "自我"; "着想"] 2).
  done.
Defined.

(** ** The ordered dictionaries and the printed histogram *)

Section dict_facts.
Implicit Types (d a b : list (string * nat)) (k : string) (v : nat).

Lemma get_setitem d k v k' :
  Dict.get (Dict.setitem d k v) k'
  = if decide (k = k') then Some v else Dict.get d k'.
Proof.
  induction d as [|[k0 v0] d IH]; simpl.
  - by destruct (decide (k = k')).
  - destruct (decide (k0 = k)) as [->|Hne]; simpl.
    + by destruct (decide (k = k')).
    + rewrite IH. destruct (decide (k0 = k')) as [->|?]; [|done].
      by rewrite decide_False by congruence.
Qed.

Lemma get_None d k : Dict.get d k = None ↔ k ∉ Dict.keys d.
Proof.
  unfold Dict.keys. induction d as [|[k0 v0] d IH].
  - split; [intros _; apply not_elem_of_nil|done].
  - rewrite fmap_cons, not_elem_of_cons. simpl.
    destruct (decide (k0 = k)) as [->|Hne].
    + split; [done|by intros [? _]].
    + rewrite IH. split; [by split|by intros [_ ?]].
Qed.

Lemma keys_setitem d k v :
  Dict.keys (Dict.setitem d k v)
  = if decide (k ∈ Dict.keys d) then Dict.keys d
    else (Dict.keys d ++ [k])%list.
Proof.
  unfold Dict.keys. induction d as [|[k0 v0] d IH].
  - destruct (decide (k ∈ ([] : list (string * nat)).*1)) as [Hin|_]; [|done].
    by apply elem_of_nil in Hin.
  - cbn [Dict.setitem]. rewrite (fmap_cons fst (k0, v0) d). cbn [fst].
    destruct (decide (k0 = k)) as [->|Hne].
    + rewrite fmap_cons. cbn [fst]. by rewrite decide_True by (by left).
    + rewrite fmap_cons, IH. cbn [fst].
      destruct (decide (k ∈ d.*1)) as [Hin|Hnin].
      * by rewrite decide_True by (by right).
      * rewrite decide_False; [done|].
        intros [->|?]%elem_of_cons; done.
Qed.

Lemma keys_setitem_NoDup d k v :
  NoDup (Dict.keys d) → NoDup (Dict.keys (Dict.setitem d k v)).
Proof.
  intros Hd. rewrite keys_setitem. destruct (decide (k ∈ Dict.keys d)); [done|].
  apply NoDup_app. split_and!; [done| |apply NoDup_singleton].
  intros x Hx ->%list_elem_of_singleton. done.
Qed.

Lemma list_to_map_get d k :
  (list_to_map d : gmap string nat) !! k = Dict.get d k.
Proof.
  induction d as [|[k0 v0] d IH]; simpl; [done|].
  rewrite lookup_insert. by destruct (decide (k0 = k)).
Qed.

(** The ordered counter holds what the counter of the claims holds. *)
Lemma Counter_get_acc (xs : list string) d (m : gmap string nat) k :
  (∀ k', Dict.get d k' = m !! k') →
  Dict.get
    (foldl (λ c x, Dict.setitem c x (S (default 0 (Dict.get c x)))) d xs) k
  = foldl Py.tally m xs !! k.
Proof.
  revert d m. induction xs as [|x xs IH]; intros d m Hdm; simpl; [done|].
  apply IH. intros k'. rewrite get_setitem. unfold Py.tally.
  rewrite lookup_insert, Hdm. by destruct (decide (x = k')).
Qed.

Lemma Counter_get (xs : list string) k :
  Dict.get (Dict.Counter xs) k = Py.Counter xs !! k.
Proof. by apply Counter_get_acc. Qed.

Lemma filter_keep {A} (P : A → Prop) `{∀ x, Decision (P x)} (l : list A) :
  Forall P l → filter P l = l.
Proof.
  induction 1 as [|x l Hx _ IH]; [done|].
  by rewrite filter_cons_True, IH.
Qed.

Lemma Counter_keys_acc (xs : list string) d :
  Dict.keys
    (foldl (λ c x, Dict.setitem c x (S (default 0 (Dict.get c x)))) d xs)
  = (Dict.keys d ++ filter (λ y, y ∉ Dict.keys d) (distinct xs))%list.
Proof.
  revert d. induction xs as [|x xs IH]; intros d; simpl.
  - by rewrite filter_nil, (right_id_L [] (++)).
  - rewrite IH, keys_setitem.
    destruct (decide (x ∈ Dict.keys d)) as [Hin|Hnin].
    + rewrite filter_cons_False by (intros H; by apply H).
      rewrite list_filter_filter. f_equal.
      apply list_filter_iff. intros y. split; [|by intros [? _]].
      intros Hy. split; [done|]. by intros ->.
    + rewrite filter_cons_True by done.
      rewrite <- (assoc_L (++)). simpl. do 2 f_equal.
      rewrite list_filter_filter. apply list_filter_iff. intros y.
      rewrite not_elem_of_app, list_elem_of_singleton. done.
Qed.

Lemma Counter_keys (xs : list string) :
  Dict.keys (Dict.Counter xs) = distinct xs.
Proof.
  unfold Dict.Counter. rewrite Counter_keys_acc. simpl.
  apply filter_keep, Forall_forall. intros y _. apply not_elem_of_nil.
Qed.

Lemma distinct_NoDup (xs : list string) : NoDup (distinct xs).
Proof.
  induction xs as [|x xs IH]; simpl; [constructor|].
  apply NoDup_cons. split.
  - rewrite list_elem_of_filter. by intros [? _].
  - by apply NoDup_filter.
Qed.

Lemma elem_of_distinct (xs : list string) (y : string) :
  y ∈ distinct xs ↔ y ∈ xs.
Proof.
  induction xs as [|x xs IH]; simpl; [done|].
  rewrite !elem_of_cons, list_elem_of_filter, IH.
  destruct (decide (y = x)); naive_solver.
Qed.

Lemma merge_get a b k :
  NoDup (Dict.keys b) →
  Dict.get (Dict.merge a b) k
  = match Dict.get b k with Some v => Some v | None => Dict.get a k end.
Proof.
  unfold Dict.merge. revert a.
  induction b as [|[k0 v0] b IH]; intros a Hb; simpl; [done|].
  unfold Dict.keys in Hb. csimpl in Hb.
  apply NoDup_cons in Hb as [Hk0 Hb].
  rewrite IH by done. rewrite get_setitem.
  destruct (decide (k0 = k)) as [->|Hne]; [|done].
  by rewrite (proj2 (get_None b k) Hk0).
Qed.

Lemma merge_keys a b :
  NoDup (Dict.keys b) →
  Dict.keys (Dict.merge a b)
  = (Dict.keys a ++ filter (λ y, y ∉ Dict.keys a) (Dict.keys b))%list.
Proof.
  unfold Dict.merge. revert a.
  induction b as [|[k0 v0] b IH]; intros a Hb; simpl.
  - by rewrite filter_nil, (right_id_L [] (++)).
  - unfold Dict.keys in Hb |- *. csimpl in Hb. csimpl.
    apply NoDup_cons in Hb as [Hk0 Hb].
    fold (Dict.keys a) (Dict.keys b) in *.
    change ((foldl (λ d '(k, v), Dict.setitem d k v)
               (Dict.setitem a k0 v0) b).*1)
      with (Dict.keys (foldl (λ d '(k, v), Dict.setitem d k v)
                         (Dict.setitem a k0 v0) b)).
    rewrite IH by done. rewrite keys_setitem.
    destruct (decide (k0 ∈ Dict.keys a)) as [Hin|Hnin].
    + by rewrite filter_cons_False by (intros H; by apply H).
    + rewrite filter_cons_True by done.
      rewrite <- (assoc_L (++)). simpl. do 2 f_equal.
      rewrite <- (filter_keep (λ y, y ≠ k0) (Dict.keys b)) at 2.
      * rewrite list_filter_filter. apply list_filter_iff. intros y.
        rewrite not_elem_of_app, list_elem_of_singleton. done.
      * apply Forall_forall. intros y Hy ->. done.
Qed.

Lemma empty_items_eq : empty_items = (λ theme, (theme, 0)) <$> Theme__args__.
Proof. by vm_compute. Qed.

Lemma empty_items_keys : Dict.keys empty_items = Theme__args__.
Proof. by vm_compute. Qed.

Lemma empty_items_get k : Dict.get empty_items k = empty_hist !! k.
Proof.
  rewrite <- list_to_map_get. unfold empty_hist. by rewrite empty_items_eq.
Qed.

(** Merging a counter into the zero-filled dictionary: keys and values. *)
Lemma merge_empty_items_get (xs : list string) k :
  Dict.get (Dict.merge empty_items (Dict.Counter xs)) k
  = Py.dict_merge empty_hist (Py.Counter xs) !! k.
Proof.
  rewrite merge_get by (rewrite Counter_keys; apply distinct_NoDup).
  by rewrite lookup_dict_merge, Counter_get, empty_items_get.
Qed.

Lemma merge_empty_items_keys (xs : list string) :
  Dict.keys (Dict.merge empty_items (Dict.Counter xs))
  = (Theme__args__ ++ filter (λ y, y ∉ Theme__args__) (distinct xs))%list.
Proof.
  rewrite merge_keys by (rewrite Counter_keys; apply distinct_NoDup).
  by rewrite Counter_keys, empty_items_keys.
Qed.

Lemma merge_empty_items_NoDup (xs : list string) :
  NoDup (Dict.keys (Dict.merge empty_items (Dict.Counter xs))).
Proof.
  rewrite merge_empty_items_keys. apply NoDup_app. split_and!.
  - apply Theme__args___NoDup.
  - intros y Hy [Hn _]%list_elem_of_filter. done.
  - apply NoDup_filter, distinct_NoDup.
Qed.

(** The items of a dictionary are its keys paired with their values. *)
Lemma items_of_keys d :
  NoDup (Dict.keys d) →
  d = (λ k, (k, default 0 (Dict.get d k))) <$> Dict.keys d.
Proof.
  unfold Dict.keys. induction d as [|[k0 v0] d IH]; [done|].
  rewrite fmap_cons. simpl. intros [Hk0 Hd]%NoDup_cons.
  rewrite decide_True by done. simpl. f_equal.
  rewrite (IH Hd) at 1. rewrite <- !list_fmap_compose.
  apply list_fmap_ext. intros i [k v] Hi. simpl.
  rewrite decide_False; [done|]. intros ->. apply Hk0.
  apply list_elem_of_lookup_2 in Hi. by apply (list_elem_of_fmap_2 fst) in Hi.
Qed.
End dict_facts.

Lemma histogram_items_unfold (table : ThemesTable) (rate : Z) :
  histogram_items table rate
  = (Dict.merge empty_items (Dict.Counter (s_counted table rate)),
     Dict.merge empty_items (Dict.Counter (w_counted table rate))).
Proof. done. Qed.

Lemma filter_none {A} (P : A → Prop) `{∀ x, Decision (P x)} (l : list A) :
  Forall (λ x, ¬ P x) l → filter P l = [].
Proof.
  induction 1 as [|x l Hx _ IH]; [done|]. rewrite filter_cons_False; done.
Qed.

Lemma filter_unknown_well_typed (xs : list string) :
  list_to_set xs ⊆ Vocabulary →
  filter (λ y, y ∉ Theme__args__) (distinct xs) = [].
Proof.
  intros Hsub. apply filter_none, Forall_forall. intros y Hy Hn. apply Hn.
  rewrite elem_of_distinct in Hy.
  assert (y ∈ Vocabulary) as Hv by (apply Hsub; by rewrite elem_of_list_to_set).
  unfold Vocabulary in Hv. by rewrite elem_of_list_to_set in Hv.
Qed.

(** X20. The dictionaries in insertion order hold exactly the mappings of
    [histogram]: same keys, each once, and the same counts. *)
Theorem histogram_items_agree (table : ThemesTable) (rate : Z) :
  list_to_map (histogram_items table rate).1 = (histogram table rate).1
  ∧ list_to_map (histogram_items table rate).2 = (histogram table rate).2
  ∧ NoDup (Dict.keys (histogram_items table rate).1)
  ∧ NoDup (Dict.keys (histogram_items table rate).2).
Proof.
  rewrite histogram_items_unfold, histogram_unfold. cbn [fst snd].
  split_and!.
  - apply map_eq. intros k.
    by rewrite list_to_map_get, merge_empty_items_get.
  - apply map_eq. intros k.
    by rewrite list_to_map_get, merge_empty_items_get.
  - apply merge_empty_items_NoDup.
  - apply merge_empty_items_NoDup.
Qed.

(** X21. The keys of both dictionaries come in a fixed order: first the 34
    vocabulary labels in the order of their declaration, whatever the
    table, then the labels outside the vocabulary that were counted, each
    once, in the order of their first occurrence. *)
Theorem histogram_items_key_order (table : ThemesTable) (rate : Z) :
  Dict.keys (histogram_items table rate).1
  = (Theme__args__
     ++ filter (λ y, y ∉ Theme__args__) (distinct (s_counted table rate)))%list
  ∧ Dict.keys (histogram_items table rate).2
    = (Theme__args__
       ++ filter (λ y, y ∉ Theme__args__)
            (distinct (w_counted table rate)))%list.
Proof.
  rewrite histogram_items_unfold. cbn [fst snd].
  by rewrite !merge_empty_items_keys.
Qed.

(** X22. For a table whose entries are all vocabulary labels,
    [pretty_histogram] prints 35 lines for each mapping: one line
    "label: count" per vocabulary label, in declaration order, the count
    being the number of occurrences of the label in the counted slices,
    and an empty line at the end. *)
Theorem pretty_histogram_lines (table : ThemesTable) (rate : Z) :
  well_typed table →
  pretty_histogram (histogram_items table rate).1
  = (((λ theme,
        theme +:+ ": " +:+ pretty (occurrences theme (s_counted table rate)))
      <$> Theme__args__) ++ [EmptyString])%list
  ∧ pretty_histogram (histogram_items table rate).2
    = (((λ theme,
          theme +:+ ": " +:+ pretty (occurrences theme (w_counted table rate)))
        <$> Theme__args__) ++ [EmptyString])%list
  ∧ length (pretty_histogram (histogram_items table rate).1) = 35
  ∧ length (pretty_histogram (histogram_items table rate).2) = 35.
Proof.
  intros Hwt.
  assert (∀ xs : list string,
            list_to_set xs ⊆ Vocabulary →
            pretty_histogram (Dict.merge empty_items (Dict.Counter xs))
            = (((λ theme, theme +:+ ": " +:+ pretty (occurrences theme xs))
                <$> Theme__args__) ++ [EmptyString])%list) as Hlines.
  { intros xs Hsub. unfold pretty_histogram. f_equal.
    rewrite (items_of_keys _ (merge_empty_items_NoDup xs)) at 1.
    rewrite merge_empty_items_keys, (filter_unknown_well_typed xs Hsub).
    rewrite (right_id_L [] (++)), <- list_fmap_compose.
    apply list_fmap_ext. intros i theme Hi. simpl.
    rewrite merge_empty_items_get, dict_merge_empty_hist_lookup.
    rewrite decide_True; [done|]. left. unfold Vocabulary.
    apply elem_of_list_to_set. by eapply list_elem_of_lookup_2. }
  rewrite histogram_items_unfold. cbn [fst snd].
  rewrite !Hlines
    by (by apply s_counted_well_typed || by apply w_counted_well_typed).
  split_and!; try done; by rewrite length_app, length_fmap.
Qed.

Lemma pretty_histogram_lines_witness :
  length (pretty_histogram (histogram_items team 5).1) = 35
  ∧ length (pretty_histogram (histogram_items team 5).2) = 35.
Proof.
  destruct (pretty_histogram_lines team 5 team_well_typed)
    as (_ & _ & Hs & Hw).
  split; [exact Hs|exact Hw].
Defined.
